(** * PIDPlatformController: a shallow embedding of
      [nyansat/station/controller/pid_controller.py]

    The controller drives two servos (azimuth, elevation) from the readings of
    an orientation sensor.  The embedding threads one [World] value through
    every method: the controller's own attributes, the two servo objects, the
    sensor object, the timer, and the log of every call made on a collaborator.

    Numbers.  Servo positions, timer periods and sweep steps are Python [int]s
    and are modelled by [Z].  Angles, thresholds and clock values are Python
    numbers that are floats in practice; they are modelled by exact rationals
    [Q], so rounding, infinities and NaN are outside the model.

    Collaborators.  The sensor, the clock and the random generator are
    deterministic scripts in [Env]: the k-th call of a method returns the k-th
    element of its script.  Any single run of the program is described by such
    scripts.  The PID algorithm ([simple_pid.PID.__call__]) is a parameter. *)

From Stdlib Require Import ZArith QArith Qabs Qround Bool List Lia Lqa.
Import ListNotations.

Local Open Scope Z_scope.

(** ** Python numbers *)

(** [x < y] on rationals, as a boolean. *)
Definition Qlt_bool (x y : Q) : bool := negb (Qle_bool y x).

(** Python's [int(x)] on a float: truncation towards zero. *)
Definition py_int (x : Q) : Z := Z.quot (Qnum x) (Zpos (Qden x)).

(** [int((hi - lo) / n)] on two ints: true division, then truncation. *)
Definition range_fraction (lo hi : Z) (n : Q) : Z := py_int (inject_Z (hi - lo) / n).

Definition half_range (lo hi : Z) : Z := range_fraction lo hi 2.

(** [range(a, b, step)]; [None] stands for the [ValueError] of a zero step. *)
Definition py_range (a b step : Z) : option (list Z) :=
  if step =? 0 then None
  else if 0 <? step then
    Some (map (fun k => a + Z.of_nat k * step)
              (seq 0 (Z.to_nat ((b - a + step - 1) / step))))
  else
    Some (map (fun k => a + Z.of_nat k * step)
              (seq 0 (Z.to_nat ((a - b - step - 1) / (- step))))).

(** ** Data model *)

Inductive Axis := Azimuth | Elevation.

Inductive SensorKind := Accelerometer | Magnetometer | Gyroscope.

(** What the program prints; one constructor per [print] statement, carrying
    the values that are formatted into the text. *)
Inductive Message :=
| MsgTimerId (id : Z)
| MsgMustOrient
| MsgOutOfServoLimit
| MsgCalibrating (k : SensorKind)
| MsgConfigurationLevel (level : Z)
| MsgCalibrationDone (k : SensorKind)
| MsgSweep (i : Z) (delta : Q)
| MsgFirstMovement (i : Z)
| MsgWaitingAgain
| MsgMovement (i : Z)
| MsgNoMovement (i : Z)
| MsgPrevious (v : Q)
| MsgCurrent (v : Q)
| MsgDelta (v : Q).

(** The callbacks the controller hands to the timer: only [self.__pid_loop]. *)
Inductive Callback := PidLoop.

(** Calls made on the collaborators, in program order. *)
Inductive Event :=
| EPrint (m : Message)
| ESetPosition (ax : Axis) (v : Z)
| EStep (ax : Axis) (v : Z)
| ESetMinPosition (ax : Axis) (v : Z)
| ESetMaxPosition (ax : Axis) (v : Z)
| ESleep (t : Q)
| EGetAzimuth (v : Q)
| EGetElevation (v : Q)
| EPrepareCalibration (prior : Z)
| EMode (m : Z)
| EStatus (k : SensorKind) (level : Z)
| ESaveCalibration (k : SensorKind) (result : Z)
| ETime (v : Q)
| ERandint (lo hi v : Z)
| ETimerInit (period : Z) (callback : Callback)
| ETimerDeinit.

(** A [ServoController] object.  [min_us] and [max_us] are the attributes the
    range calibrators assign directly. *)
Record Servo := mkServo {
  position : Z;
  min_position : Z;
  max_position : Z;
  min_us : Z;
  max_us : Z
}.

(** An [ImuController] object: its fusion mode and how far each script of
    [Env] has been consumed. *)
Record Imu := mkImu {
  fusion_mode : Z;
  azimuth_reads : nat;
  elevation_reads : nat;
  status_polls : nat;
  saves : nat
}.

(** The scripts of the collaborators. *)
Record Env := mkEnv {
  imu_azimuth : nat -> Q;
  imu_elevation : nat -> Q;
  imu_status : SensorKind -> nat -> Z;
  imu_save_result : SensorKind -> nat -> Z;
  imu_calibration_mode : Z;
  clock : nat -> Q;
  randint_script : nat -> Z -> Z -> Z;
  config_pid_timer_id : Z
}.

Inductive PyError := AttributeError | TypeError | ValueError.

(** Outcome of a method that can raise or loop: [OutOfFuel] is a loop that
    did not finish within the given number of iterations. *)
Inductive Result (A : Type) :=
| Return (a : A)
| Raise (e : PyError)
| OutOfFuel.
Arguments Return {A} a.
Arguments Raise {A} e.
Arguments OutOfFuel {A}.

Section Controller.

(** The internal memory of a [simple_pid.PID] object (integral term, last
    input, last output, last time), the memory of a newly built one, and the
    call [pid(input)] that returns the correction and the updated object. *)
Variable PidMem : Type.
Variable pid_fresh : PidMem.

Record PID := mkPID {
  setpoint : Q;
  output_limits : Q * Q;
  Kp : Q;
  Ki : Q;
  Kd : Q;
  memory : PidMem
}.

Variable pid_call : PID -> Q -> Q * PID.

Variable env : Env.

(** The attributes of [self]. *)
Record Controller := mkController {
  motion_started : bool;
  pin_interrupt : bool;
  deadzone : option (list (Q * Q));
  timer_id : Z;
  new_elevation : Q;
  new_azimuth : Q;
  pid_output_limits : Q * Q;
  pid_frequency : Z;
  gain_p : Q;
  gain_i : Q;
  gain_d : Q;
  elevation_pid : option PID;
  azimuth_pid : option PID
}.

Record World := mkWorld {
  self : Controller;
  azimuth : Servo;
  elevation : Servo;
  imu : Imu;
  pid_loop_timer : option (Z * Callback);
  clock_reads : nat;
  randint_calls : nat;
  trace : list Event
}.

(** *** Field updates *)

Definition with_self (f : Controller -> Controller) (w : World) : World :=
  mkWorld (f (self w)) (azimuth w) (elevation w) (imu w) (pid_loop_timer w)
          (clock_reads w) (randint_calls w) (trace w).

Definition with_servo (ax : Axis) (f : Servo -> Servo) (w : World) : World :=
  match ax with
  | Azimuth =>
      mkWorld (self w) (f (azimuth w)) (elevation w) (imu w) (pid_loop_timer w)
              (clock_reads w) (randint_calls w) (trace w)
  | Elevation =>
      mkWorld (self w) (azimuth w) (f (elevation w)) (imu w) (pid_loop_timer w)
              (clock_reads w) (randint_calls w) (trace w)
  end.

Definition with_imu (f : Imu -> Imu) (w : World) : World :=
  mkWorld (self w) (azimuth w) (elevation w) (f (imu w)) (pid_loop_timer w)
          (clock_reads w) (randint_calls w) (trace w).

Definition with_timer (t : option (Z * Callback)) (w : World) : World :=
  mkWorld (self w) (azimuth w) (elevation w) (imu w) t
          (clock_reads w) (randint_calls w) (trace w).

Definition emit (e : Event) (w : World) : World :=
  mkWorld (self w) (azimuth w) (elevation w) (imu w) (pid_loop_timer w)
          (clock_reads w) (randint_calls w) (trace w ++ [e]).

Definition servo (ax : Axis) (w : World) : Servo :=
  match ax with Azimuth => azimuth w | Elevation => elevation w end.

Definition set_deadzone (dz : option (list (Q * Q))) (c : Controller) :=
  mkController (motion_started c) (pin_interrupt c) dz (timer_id c)
    (new_elevation c) (new_azimuth c) (pid_output_limits c) (pid_frequency c)
    (gain_p c) (gain_i c) (gain_d c) (elevation_pid c) (azimuth_pid c).

Definition set_new_elevation (v : Q) (c : Controller) :=
  mkController (motion_started c) (pin_interrupt c) (deadzone c) (timer_id c)
    v (new_azimuth c) (pid_output_limits c) (pid_frequency c)
    (gain_p c) (gain_i c) (gain_d c) (elevation_pid c) (azimuth_pid c).

Definition set_new_azimuth (v : Q) (c : Controller) :=
  mkController (motion_started c) (pin_interrupt c) (deadzone c) (timer_id c)
    (new_elevation c) v (pid_output_limits c) (pid_frequency c)
    (gain_p c) (gain_i c) (gain_d c) (elevation_pid c) (azimuth_pid c).

Definition set_elevation_pid (p : option PID) (c : Controller) :=
  mkController (motion_started c) (pin_interrupt c) (deadzone c) (timer_id c)
    (new_elevation c) (new_azimuth c) (pid_output_limits c) (pid_frequency c)
    (gain_p c) (gain_i c) (gain_d c) p (azimuth_pid c).

Definition set_azimuth_pid (p : option PID) (c : Controller) :=
  mkController (motion_started c) (pin_interrupt c) (deadzone c) (timer_id c)
    (new_elevation c) (new_azimuth c) (pid_output_limits c) (pid_frequency c)
    (gain_p c) (gain_i c) (gain_d c) (elevation_pid c) p.

Definition pid_set_setpoint (v : Q) (p : PID) : PID :=
  mkPID v (output_limits p) (Kp p) (Ki p) (Kd p) (memory p).

(** ** Collaborators *)

(** [print(...)]. *)
Definition print (m : Message) (w : World) : World := emit (EPrint m) w.

(** [time.sleep(t)]. *)
Definition sleep (t : Q) (w : World) : World := emit (ESleep t) w.

(** [time.time()]. *)
Definition time_time (w : World) : Q * World :=
  let v := clock env (clock_reads w) in
  (v, emit (ETime v)
        (mkWorld (self w) (azimuth w) (elevation w) (imu w) (pid_loop_timer w)
                 (S (clock_reads w)) (randint_calls w) (trace w))).

(** [random.randint(lo, hi)]. *)
Definition random_randint (lo hi : Z) (w : World) : Z * World :=
  let v := randint_script env (randint_calls w) lo hi in
  (v, emit (ERandint lo hi v)
        (mkWorld (self w) (azimuth w) (elevation w) (imu w) (pid_loop_timer w)
                 (clock_reads w) (S (randint_calls w)) (trace w))).

(** Modelled from the spec: the [ServoController] class (motor/motor.py) is
    missing; the actuator axis offers [get_min_position/get_max_position -> int],
    [set_min_position/set_max_position(int)], [set_position(int)] (absolute,
    clamped) and [step(delta)] (relative, clamped). *)
Definition clamp (lo hi v : Z) : Z := Z.max lo (Z.min hi v).

Definition get_min_position (ax : Axis) (w : World) : Z := min_position (servo ax w).

Definition get_max_position (ax : Axis) (w : World) : Z := max_position (servo ax w).

Definition servo_set_min_position (ax : Axis) (v : Z) (w : World) : World :=
  emit (ESetMinPosition ax v)
    (with_servo ax (fun s => mkServo (position s) v (max_position s) (min_us s) (max_us s)) w).

Definition servo_set_max_position (ax : Axis) (v : Z) (w : World) : World :=
  emit (ESetMaxPosition ax v)
    (with_servo ax (fun s => mkServo (position s) (min_position s) v (min_us s) (max_us s)) w).

Definition servo_set_position (ax : Axis) (v : Z) (w : World) : World :=
  emit (ESetPosition ax v)
    (with_servo ax (fun s => mkServo (clamp (min_position s) (max_position s) v)
                               (min_position s) (max_position s) (min_us s) (max_us s)) w).

Definition servo_step (ax : Axis) (delta : Z) (w : World) : World :=
  emit (EStep ax delta)
    (with_servo ax (fun s => mkServo (clamp (min_position s) (max_position s) (position s + delta))
                               (min_position s) (max_position s) (min_us s) (max_us s)) w).

(** The attribute assignments [servo.min_us = v] and [servo.max_us = v]. *)
Definition servo_assign_min_us (ax : Axis) (v : Z) (w : World) : World :=
  with_servo ax (fun s => mkServo (position s) (min_position s) (max_position s) v (max_us s)) w.

Definition servo_assign_max_us (ax : Axis) (v : Z) (w : World) : World :=
  with_servo ax (fun s => mkServo (position s) (min_position s) (max_position s) (min_us s) v) w.

(** Modelled from the spec: the [ImuController] class (imu/imu.py) is missing;
    the orientation sensor offers [get_azimuth()], [get_elevation()],
    [prepare_calibration() -> prior_mode] (switches to a calibration-friendly
    fusion mode), [mode(prior_mode)] (restore), the three status polls
    returning 0..3 and the three save calls returning the commit result. *)
Definition imu_get_azimuth (w : World) : Q * World :=
  let v := imu_azimuth env (azimuth_reads (imu w)) in
  (v, emit (EGetAzimuth v)
        (with_imu (fun m => mkImu (fusion_mode m) (S (azimuth_reads m))
                              (elevation_reads m) (status_polls m) (saves m)) w)).

Definition imu_get_elevation (w : World) : Q * World :=
  let v := imu_elevation env (elevation_reads (imu w)) in
  (v, emit (EGetElevation v)
        (with_imu (fun m => mkImu (fusion_mode m) (azimuth_reads m)
                              (S (elevation_reads m)) (status_polls m) (saves m)) w)).

Definition imu_prepare_calibration (w : World) : Z * World :=
  let prior := fusion_mode (imu w) in
  (prior, emit (EPrepareCalibration prior)
            (with_imu (fun m => mkImu (imu_calibration_mode env) (azimuth_reads m)
                                  (elevation_reads m) (status_polls m) (saves m)) w)).

Definition imu_mode (mode : Z) (w : World) : World :=
  emit (EMode mode)
    (with_imu (fun m => mkImu mode (azimuth_reads m) (elevation_reads m)
                          (status_polls m) (saves m)) w).

Definition imu_get_status (k : SensorKind) (w : World) : Z * World :=
  let v := imu_status env k (status_polls (imu w)) in
  (v, emit (EStatus k v)
        (with_imu (fun m => mkImu (fusion_mode m) (azimuth_reads m)
                              (elevation_reads m) (S (status_polls m)) (saves m)) w)).

Definition imu_save_calibration (k : SensorKind) (w : World) : Z * World :=
  let v := imu_save_result env k (saves (imu w)) in
  (v, emit (ESaveCalibration k v)
        (with_imu (fun m => mkImu (fusion_mode m) (azimuth_reads m)
                              (elevation_reads m) (status_polls m) (S (saves m))) w)).

(** [machine.Timer.init(period=..., mode=PERIODIC, callback=self.__pid_loop)]
    and [deinit()]. *)
Definition timer_init (period : Z) (callback : Callback) (w : World) : World :=
  emit (ETimerInit period callback) (with_timer (Some (period, callback)) w).

Definition timer_deinit (w : World) : World :=
  emit ETimerDeinit (with_timer None w).

(** ** Methods of [PIDPlatformController] *)

(** [init_pid]: both PID objects are rebuilt from the current setpoints,
    limits and gains. *)
Definition init_pid (w : World) : World :=
  let c := self w in
  let w := with_self (set_elevation_pid
             (Some (mkPID (new_elevation c) (pid_output_limits c)
                          (gain_p c) (gain_i c) (gain_d c) pid_fresh))) w in
  let c := self w in
  with_self (set_azimuth_pid
             (Some (mkPID (new_azimuth c) (pid_output_limits c)
                          (gain_p c) (gain_i c) (gain_d c) pid_fresh))) w.

(** [__init__]. *)
Definition init (azimuth0 elevation0 : Servo) (imu0 : Imu)
    (pid_output_limits0 : Q * Q) (pid_frequency0 : Z) (p i d : Q) : World :=
  let id := config_pid_timer_id env in
  let w := mkWorld
             (mkController false true None id 0 0 pid_output_limits0 pid_frequency0
                           p i d None None)
             azimuth0 elevation0 imu0 None 0%nat 0%nat [] in
  let w := print (MsgTimerId id) w in
  let w := servo_set_position Elevation
             (half_range (get_min_position Elevation w) (get_max_position Elevation w)) w in
  let w := servo_set_position Azimuth
             (half_range (get_min_position Azimuth w) (get_max_position Azimuth w)) w in
  let w := with_self (set_new_elevation 0) w in
  let w := with_self (set_new_azimuth 0) w in
  init_pid w.

(** The [for ... in self.deadzone] loop of [set_azimuth]: [true] when some
    interval holds the angle strictly inside. *)
Fixpoint in_deadzone (dz : list (Q * Q)) (azimuth0 : Q) : bool :=
  match dz with
  | [] => false
  | (dead_zone_min, dead_zone_max) :: rest =>
      if Qlt_bool dead_zone_min azimuth0 && Qlt_bool azimuth0 dead_zone_max
      then true
      else in_deadzone rest azimuth0
  end.

Definition set_azimuth (azimuth0 : Q) (w : World) : World :=
  match deadzone (self w) with
  | None => print MsgMustOrient w
  | Some dz =>
      if in_deadzone dz azimuth0
      then print MsgOutOfServoLimit w
      else with_self (set_new_azimuth azimuth0) w
  end.

Definition get_azimuth (w : World) : Q * World := imu_get_azimuth w.

Definition set_elevation (elevation0 : Q) (w : World) : World :=
  with_self (set_new_elevation elevation0) w.

Definition get_elevation (w : World) : Q * World := imu_get_elevation w.

Definition set_coordinates (azimuth0 elevation0 : Q) (w : World) : World :=
  let w := set_elevation elevation0 w in
  set_azimuth azimuth0 w.

(** [get_delta]. *)
Definition get_delta (current prev : Q) : Q :=
  let d := Qabs (current - prev) in
  if Qlt_bool 180 d then 360 - d else d.

(** [orient]. *)
Definition orient (w : World) : list (Q * Q) * World :=
  let w := servo_set_position Azimuth (get_min_position Azimuth w) w in
  let w := sleep 1 w in
  let (min_azimuth, w) := imu_get_azimuth w in
  let w := servo_set_position Azimuth (get_max_position Azimuth w) w in
  let w := sleep 1 w in
  let (max_azimuth, w) := imu_get_azimuth w in
  let dz := if Qlt_bool max_azimuth min_azimuth
            then [(min_azimuth, 360%Q); (0%Q, max_azimuth)]
            else [(min_azimuth, max_azimuth)] in
  (dz, with_self (set_deadzone (Some dz)) w).

(** [start_pid_loop]; assigning [setpoint] on a controller whose PID objects
    are still [None] raises. *)
Definition start_pid_loop (w : World) : Result World :=
  let (el, w) := imu_get_elevation w in
  let w := with_self (set_new_elevation el) w in
  let (az, w) := imu_get_azimuth w in
  let w := with_self (set_new_azimuth az) w in
  match azimuth_pid (self w) with
  | None => Raise AttributeError
  | Some ap =>
      let w := with_self (set_azimuth_pid
                 (Some (pid_set_setpoint (new_azimuth (self w)) ap))) w in
      match elevation_pid (self w) with
      | None => Raise AttributeError
      | Some ep =>
          let w := with_self (set_elevation_pid
                     (Some (pid_set_setpoint (new_elevation (self w)) ep))) w in
          Return (timer_init (pid_frequency (self w)) PidLoop w)
      end
  end.

Definition stop_pid_loop (w : World) : World := timer_deinit w.

Definition start (w : World) : Result World := start_pid_loop w.

Definition stop (w : World) : World := stop_pid_loop w.

(** [__pid_loop], the timer handler. *)
Definition pid_loop (w : World) : Result World :=
  match elevation_pid (self w) with
  | None => Raise AttributeError
  | Some ep =>
      let w := with_self (set_elevation_pid
                 (Some (pid_set_setpoint (new_elevation (self w)) ep))) w in
      match azimuth_pid (self w) with
      | None => Raise AttributeError
      | Some ap =>
          let w := with_self (set_azimuth_pid
                     (Some (pid_set_setpoint (new_azimuth (self w)) ap))) w in
          let (_elevation, w) := get_elevation w in
          let (_azimuth, w) := get_azimuth w in
          match elevation_pid (self w) with
          | None => Raise TypeError
          | Some ep =>
              let (out_el, ep) := pid_call ep _elevation in
              let w := with_self (set_elevation_pid (Some ep)) w in
              let el_duty := py_int out_el in
              match azimuth_pid (self w) with
              | None => Raise TypeError
              | Some ap =>
                  let (out_az, ap) := pid_call ap _azimuth in
                  let w := with_self (set_azimuth_pid (Some ap)) w in
                  let az_duty := py_int out_az * -1 in
                  let w := servo_step Elevation el_duty w in
                  Return (servo_step Azimuth az_duty w)
              end
          end
      end
  end.

(** The timer firing [n] times: [n] runs of the handler. *)
Fixpoint ticks (n : nat) (w : World) : Result World :=
  match n with
  | O => Return w
  | S n' =>
      match pid_loop w with
      | Return w' => ticks n' w'
      | Raise e => Raise e
      | OutOfFuel => OutOfFuel
      end
  end.

(** The [if level != prev_level: print(...); prev_level = level] tail shared
    by the three polling loops. *)
Definition report_level (level prev_level : Z) (w : World) : Z * World :=
  if negb (level =? prev_level)
  then (level, print (MsgConfigurationLevel level) w)
  else (prev_level, w).

(** One iteration of the [while accel_level < 3] loop of
    [auto_calibrate_accelerometer]: the new values of [accel_level],
    [prev_accel_level] and [start]. *)
Definition accelerometer_body (prev_accel_level : Z) (start0 : Q) (w : World)
    : Z * Z * Q * World :=
  let (now, w) := time_time w in
  let (start0, w) :=
    if Qlt_bool 2 (now - start0) then
      let (r, w) := random_randint (get_min_position Elevation w)
                                   (get_max_position Elevation w) w in
      let w := servo_set_position Elevation r w in
      let (r, w) := random_randint (get_min_position Azimuth w)
                                   (get_max_position Azimuth w) w in
      let w := servo_set_position Azimuth r w in
      time_time w
    else (start0, w) in
  let (accel_level, w) := imu_get_status Accelerometer w in
  let (prev_accel_level, w) := report_level accel_level prev_accel_level w in
  (accel_level, prev_accel_level, start0, w).

Fixpoint accelerometer_loop (fuel : nat) (accel_level prev_accel_level : Z)
    (start0 : Q) (w : World) : Result World :=
  if accel_level <? 3 then
    match fuel with
    | O => OutOfFuel
    | S fuel' =>
        let '(accel_level, prev_accel_level, start0, w) :=
          accelerometer_body prev_accel_level start0 w in
        accelerometer_loop fuel' accel_level prev_accel_level start0 w
    end
  else Return w.

Definition auto_calibrate_accelerometer (fuel : nat) (w : World) : Result (Z * World) :=
  let (old_mode, w) := imu_prepare_calibration w in
  let (accel_level, w) := imu_get_status Accelerometer w in
  let prev_accel_level := accel_level in
  let w := print (MsgCalibrating Accelerometer) w in
  let w := print (MsgConfigurationLevel accel_level) w in
  let (start0, w) := time_time w in
  match accelerometer_loop fuel accel_level prev_accel_level start0 w with
  | Return w =>
      let w := print (MsgCalibrationDone Accelerometer) w in
      let w := imu_mode old_mode w in
      Return (imu_save_calibration Accelerometer w)
  | Raise e => Raise e
  | OutOfFuel => OutOfFuel
  end.

(** One iteration of the [while magnet_level < 3] loop of
    [auto_calibrate_magnetometer]: the new values of [magnet_level],
    [prev_magnet_level], [start], [count] and [count_2]. *)
Definition magnetometer_body (prev_magnet_level : Z) (start0 : Q) (count count_2 : Z)
    (w : World) : Z * Z * Q * Z * Z * World :=
  let (now, w) := time_time w in
  let '(start0, count, count_2, w) :=
    if Qlt_bool 2 (now - start0) then
      let w := servo_set_position Azimuth (get_min_position Azimuth w + count) w in
      let count := count + range_fraction (get_min_position Azimuth w)
                                          (get_max_position Azimuth w) 8 in
      let '(count, count_2, w) :=
        if get_max_position Azimuth w <? count + get_min_position Azimuth w then
          let count_2 := count_2 + range_fraction (get_min_position Elevation w)
                                                  (get_max_position Elevation w) 8 in
          let count_2 :=
            if get_max_position Elevation w <? count_2 + get_min_position Elevation w
            then 0 else count_2 in
          let w := servo_set_position Elevation
                     (get_min_position Elevation w + count_2) w in
          (0, count_2, w)
        else (count, count_2, w) in
      let (start0, w) := time_time w in
      (start0, count, count_2, w)
    else (start0, count, count_2, w) in
  let (magnet_level, w) := imu_get_status Magnetometer w in
  let (prev_magnet_level, w) := report_level magnet_level prev_magnet_level w in
  (magnet_level, prev_magnet_level, start0, count, count_2, w).

Fixpoint magnetometer_loop (fuel : nat) (magnet_level prev_magnet_level : Z)
    (start0 : Q) (count count_2 : Z) (w : World) : Result World :=
  if magnet_level <? 3 then
    match fuel with
    | O => OutOfFuel
    | S fuel' =>
        let '(magnet_level, prev_magnet_level, start0, count, count_2, w) :=
          magnetometer_body prev_magnet_level start0 count count_2 w in
        magnetometer_loop fuel' magnet_level prev_magnet_level start0 count count_2 w
    end
  else Return w.

Definition auto_calibrate_magnetometer (fuel : nat) (w : World) : Result (Z * World) :=
  let (old_mode, w) := imu_prepare_calibration w in
  let (magnet_level, w) := imu_get_status Magnetometer w in
  let prev_magnet_level := magnet_level in
  let w := print (MsgCalibrating Magnetometer) w in
  let w := print (MsgConfigurationLevel magnet_level) w in
  let (start0, w) := time_time w in
  let count := 0 in
  let count_2 := 0 in
  let w := servo_set_position Elevation (get_min_position Elevation w) w in
  match magnetometer_loop fuel magnet_level prev_magnet_level start0 count count_2 w with
  | Return w =>
      let w := print (MsgCalibrationDone Magnetometer) w in
      let w := imu_mode old_mode w in
      Return (imu_save_calibration Magnetometer w)
  | Raise e => Raise e
  | OutOfFuel => OutOfFuel
  end.

(** One iteration of the [while gyro_level < 3] loop of
    [auto_calibrate_gyroscope]: the new values of [gyro_level] and
    [prev_gyro_level]. *)
Definition gyroscope_body (prev_gyro_level : Z) (w : World) : Z * Z * World :=
  let (gyro_level, w) := imu_get_status Gyroscope w in
  let (prev_gyro_level, w) := report_level gyro_level prev_gyro_level w in
  (gyro_level, prev_gyro_level, w).

Fixpoint gyroscope_loop (fuel : nat) (gyro_level prev_gyro_level : Z)
    (w : World) : Result World :=
  if gyro_level <? 3 then
    match fuel with
    | O => OutOfFuel
    | S fuel' =>
        let '(gyro_level, prev_gyro_level, w) := gyroscope_body prev_gyro_level w in
        gyroscope_loop fuel' gyro_level prev_gyro_level w
    end
  else Return w.

Definition auto_calibrate_gyroscope (fuel : nat) (w : World) : Result (Z * World) :=
  let (old_mode, w) := imu_prepare_calibration w in
  let (gyro_level, w) := imu_get_status Gyroscope w in
  let prev_gyro_level := gyro_level in
  let w := print (MsgCalibrating Gyroscope) w in
  let w := print (MsgConfigurationLevel gyro_level) w in
  match gyroscope_loop fuel gyro_level prev_gyro_level w with
  | Return w =>
      let w := print (MsgCalibrationDone Gyroscope) w in
      let w := imu_mode old_mode w in
      Return (imu_save_calibration Gyroscope w)
  | Raise e => Raise e
  | OutOfFuel => OutOfFuel
  end.

(** [self.imu.get_elevation()] in the elevation calibrator,
    [self.imu.get_azimuth()] in the azimuth calibrator. *)
Definition imu_get (ax : Axis) (w : World) : Q * World :=
  match ax with
  | Azimuth => imu_get_azimuth w
  | Elevation => imu_get_elevation w
  end.

(** The [for i in range(...)] loop of [auto_calibrate_elevation_servo]
    ([ax = Elevation], lines 270-301) and of [auto_calibrate_azimuth_servo]
    ([ax = Azimuth], lines 319-350); the two loops are the same text up to the
    axis.  [positions] are the values of [i] still to visit.  The loop ends
    the method when the list is exhausted or on [return]; [continue] skips
    the assignment to [prev]. *)
Fixpoint sweep (ax : Axis) (positions : list Z) (d t : Q)
    (moving first_move : bool) (prev : Q) (w : World) : World :=
  match positions with
  | [] => w
  | i :: rest =>
      let w := servo_set_position ax i w in
      let w := sleep t w in
      let (current, w) := imu_get ax w in
      let delta := get_delta current prev in
      let w := print (MsgSweep i delta) w in
      if Qlt_bool d delta && negb first_move then
        let first_move := true in
        let w := print (MsgFirstMovement i) w in
        let w := print MsgWaitingAgain w in
        let w := print (MsgPrevious prev) w in
        let w := print (MsgCurrent current) w in
        let w := print (MsgDelta delta) w in
        sweep ax rest d t moving first_move current w
      else if Qlt_bool d delta && first_move && negb moving then
        let moving := true in
        let w := print (MsgMovement i) w in
        let w := print (MsgPrevious prev) w in
        let w := print (MsgCurrent current) w in
        let w := print (MsgDelta delta) w in
        let w := servo_assign_min_us ax (i + 100) w in
        sweep ax rest d t moving first_move current w
      else if Qlt_bool delta d && moving then
        let w := servo_set_position ax (i + 100) w in
        let (again, w) := imu_get ax w in
        let try_again_delta := get_delta again current in
        if Qlt_bool d try_again_delta then
          sweep ax rest d t moving first_move prev w
        else
          let w := print (MsgNoMovement i) w in
          let w := print (MsgPrevious prev) w in
          let w := print (MsgCurrent current) w in
          let w := print (MsgDelta delta) w in
          servo_assign_max_us ax (i - 100) w
      else
        sweep ax rest d t moving first_move current w
  end.

(** Lines 263-269 of [auto_calibrate_elevation_servo]: everything before the
    [for] statement.  Returns [prev_elevation]. *)
Definition elevation_servo_setup (w : World) : Q * World :=
  let w := servo_set_min_position Elevation 0 w in
  let w := servo_set_max_position Elevation 4095 w in
  let w := servo_set_position Elevation
             (half_range (get_min_position Azimuth w) (get_max_position Azimuth w)) w in
  let w := sleep 1 w in
  imu_get_elevation w.

Definition auto_calibrate_elevation_servo (us : Z) (d t : Q) (w : World)
    : Result World :=
  let moving := false in
  let first_move := false in
  let (prev_elevation, w) := elevation_servo_setup w in
  match py_range (get_min_position Elevation w) (get_max_position Elevation w) us with
  | None => Raise ValueError
  | Some positions =>
      Return (sweep Elevation positions d t moving first_move prev_elevation w)
  end.

(** Lines 310-317 of [auto_calibrate_azimuth_servo]: everything before the
    [for] statement.  Returns [prev_azimuth]. *)
Definition azimuth_servo_setup (w : World) : Q * World :=
  let w := servo_set_min_position Azimuth 0 w in
  let w := servo_set_max_position Azimuth 4095 w in
  let w := servo_set_position Elevation
             (half_range (get_min_position Azimuth w) (get_max_position Azimuth w)) w in
  let w := servo_set_position Azimuth
             (half_range (get_min_position Azimuth w) (get_max_position Azimuth w)) w in
  let w := sleep 1 w in
  imu_get_azimuth w.

Definition auto_calibrate_azimuth_servo (us : Z) (d t : Q) (w : World)
    : Result World :=
  let moving := false in
  let first_move := false in
  let (prev_azimuth, w) := azimuth_servo_setup w in
  match py_range (get_min_position Azimuth w) (get_max_position Azimuth w) us with
  | None => Raise ValueError
  | Some positions =>
      Return (sweep Azimuth positions d t moving first_move prev_azimuth w)
  end.

End Controller.

Arguments self {PidMem} w.
Arguments azimuth {PidMem} w.
Arguments elevation {PidMem} w.
Arguments imu {PidMem} w.
Arguments pid_loop_timer {PidMem} w.
Arguments clock_reads {PidMem} w.
Arguments randint_calls {PidMem} w.
Arguments trace {PidMem} w.
Arguments deadzone {PidMem} c.
Arguments timer_id {PidMem} c.
Arguments new_elevation {PidMem} c.
Arguments new_azimuth {PidMem} c.
Arguments pid_output_limits {PidMem} c.
Arguments pid_frequency {PidMem} c.
Arguments elevation_pid {PidMem} c.
Arguments azimuth_pid {PidMem} c.
Arguments setpoint {PidMem} p.
Arguments output_limits {PidMem} p.
Arguments Kp {PidMem} p.
Arguments Ki {PidMem} p.
Arguments Kd {PidMem} p.
Arguments memory {PidMem} p.
Arguments servo {PidMem} ax w.
Arguments get_min_position {PidMem} ax w.
Arguments get_max_position {PidMem} ax w.
Arguments with_self {PidMem} f w.
Arguments with_servo {PidMem} ax f w.
Arguments with_imu {PidMem} f w.
Arguments with_timer {PidMem} t w.
Arguments emit {PidMem} e w.
Arguments set_deadzone {PidMem} dz c.
Arguments set_new_elevation {PidMem} v c.
Arguments set_new_azimuth {PidMem} v c.
Arguments set_elevation_pid {PidMem} p c.
Arguments set_azimuth_pid {PidMem} p c.
Arguments pid_set_setpoint {PidMem} v p.
Arguments print {PidMem} m w.
Arguments sleep {PidMem} t w.
Arguments time_time {PidMem} env w.
Arguments random_randint {PidMem} env lo hi w.
Arguments servo_set_min_position {PidMem} ax v w.
Arguments servo_set_max_position {PidMem} ax v w.
Arguments servo_set_position {PidMem} ax v w.
Arguments servo_step {PidMem} ax delta w.
Arguments servo_assign_min_us {PidMem} ax v w.
Arguments servo_assign_max_us {PidMem} ax v w.
Arguments imu_get_azimuth {PidMem} env w.
Arguments imu_get_elevation {PidMem} env w.
Arguments imu_prepare_calibration {PidMem} env w.
Arguments imu_mode {PidMem} mode w.
Arguments imu_get_status {PidMem} env k w.
Arguments imu_save_calibration {PidMem} env k w.
Arguments timer_init {PidMem} period callback w.
Arguments timer_deinit {PidMem} w.
Arguments init_pid {PidMem} pid_fresh w.
Arguments init {PidMem} pid_fresh env azimuth0 elevation0 imu0 pid_output_limits0
  pid_frequency0 p i d.
Arguments set_azimuth {PidMem} azimuth0 w.
Arguments get_azimuth {PidMem} env w.
Arguments set_elevation {PidMem} elevation0 w.
Arguments get_elevation {PidMem} env w.
Arguments set_coordinates {PidMem} azimuth0 elevation0 w.
Arguments orient {PidMem} env w.
Arguments start_pid_loop {PidMem} env w.
Arguments stop_pid_loop {PidMem} w.
Arguments start {PidMem} env w.
Arguments stop {PidMem} w.
Arguments pid_loop {PidMem} pid_call env w.
Arguments ticks {PidMem} pid_call env n w.
Arguments report_level {PidMem} level prev_level w.
Arguments accelerometer_body {PidMem} env prev_accel_level start0 w.
Arguments magnetometer_body {PidMem} env prev_magnet_level start0 count count_2 w.
Arguments gyroscope_body {PidMem} env prev_gyro_level w.
Arguments accelerometer_loop {PidMem} env fuel accel_level prev_accel_level start0 w.
Arguments auto_calibrate_accelerometer {PidMem} env fuel w.
Arguments magnetometer_loop {PidMem} env fuel magnet_level prev_magnet_level start0
  count count_2 w.
Arguments auto_calibrate_magnetometer {PidMem} env fuel w.
Arguments gyroscope_loop {PidMem} env fuel gyro_level prev_gyro_level w.
Arguments auto_calibrate_gyroscope {PidMem} env fuel w.
Arguments imu_get {PidMem} env ax w.
Arguments sweep {PidMem} env ax positions d t moving first_move prev w.
Arguments elevation_servo_setup {PidMem} env w.
Arguments auto_calibrate_elevation_servo {PidMem} env us d t w.
Arguments azimuth_servo_setup {PidMem} env w.
Arguments auto_calibrate_azimuth_servo {PidMem} env us d t w.

(** ** Simulated collaborators used to run the methods *)

(** A proportional-only PID whose correction is clamped to [output_limits];
    it keeps no memory. *)
Definition Qclamp (lo hi x : Q) : Q :=
  if Qlt_bool x lo then lo else if Qlt_bool hi x then hi else x.

Definition p_only_call (pid : PID unit) (input : Q) : Q * PID unit :=
  (Qclamp (fst (output_limits pid)) (snd (output_limits pid))
          (Kp pid * (setpoint pid - input)), pid).

(** A 12-bit servo centred nowhere in particular. *)
Definition servo_12bit : Servo := mkServo 0 0 4095 0 4095.

Definition imu_idle : Imu := mkImu 12 0 0 0 0.

(** Sensor scripts given by a list: the k-th call returns the k-th element,
    and [rest] once the list is exhausted. *)
Definition script {A : Type} (l : list A) (rest : A) (k : nat) : A := nth k l rest.

(** A simulated environment: azimuth and elevation scripts, one confidence
    script for all sensor kinds, a commit that answers 1, calibration mode 8,
    a clock that advances one unit per reading, a random generator that
    answers its lower bound, and hardware timer 1. *)
Definition sim_env (az el : nat -> Q) (status : nat -> Z) : Env :=
  mkEnv az el (fun _ => status) (fun _ _ => 1) 8
        (fun k => inject_Z (Z.of_nat k)) (fun _ lo _ => lo) 1.

(** A simulated sensor of which only the azimuth, the elevation or the
    confidence matters. *)
Definition sim_azimuths (l : list Q) (rest : Q) : Env :=
  sim_env (script l rest) (fun _ => 0%Q) (fun _ => 0).

Definition sim_elevations (l : list Q) (rest : Q) : Env :=
  sim_env (fun _ => 0%Q) (script l rest) (fun _ => 0).

Definition sim_confidence (l : list Z) (rest : Z) : Env :=
  sim_env (fun _ => 0%Q) (fun _ => 0%Q) (script l rest).

(** A platform at rest: every reading is the same azimuth and elevation. *)
Definition sim_pointing (az el : Q) : Env :=
  sim_env (fun _ => az) (fun _ => el) (fun _ => 0).

(** A sweep in which the platform starts to move at the second position and
    stops after the third: the readings of both axes are 0, 0, 1, 2, 2, ... *)
Definition sim_short_travel : Env :=
  sim_env (script [0; 0; 1; 2]%Q 2%Q) (script [0; 0; 1; 2]%Q 2%Q) (fun _ => 0).

(** A sensor whose confidence follows a script while the clock reads 0, 1 and
    then stays at 2. *)
Definition sim_stalled_clock (l : list Z) (rest : Z) : Env :=
  mkEnv (fun _ => 0%Q) (fun _ => 0%Q) (fun _ => script l rest) (fun _ _ => 1) 8
        (script [0; 1]%Q 2%Q) (fun _ lo _ => lo) 1.

(** A controller built by [__init__] on two 12-bit servos with the P-only PID,
    gains [(1, 0, 0)] and period 100. *)
Definition sim_controller (env : Env) (limits : Q * Q) : World unit :=
  init tt env servo_12bit servo_12bit imu_idle limits 100 1 0 0.

(** ** Vocabulary of the properties *)

(** [x] lies strictly inside the interval [iv]. *)
Definition strictly_inside (x : Q) (iv : Q * Q) : Prop :=
  (fst iv < x)%Q /\ (x < snd iv)%Q.

(** The two reasons for which [set_azimuth] refuses an angle: no deadzone yet,
    or the angle strictly inside one of its intervals. *)
Definition azimuth_rejected {PidMem : Type} (w : World PidMem) (deg : Q) : Prop :=
  match deadzone (self w) with
  | None => True
  | Some dz => Exists (strictly_inside deg) dz
  end.

(** The mid-range position of an actuator: halfway between its bounds. *)
Definition mid_range (s : Servo) : Q :=
  (inject_Z (min_position s + max_position s) / 2)%Q.

(** The values passed to [step] on one axis, oldest first. *)
Fixpoint steps_of (ax : Axis) (tr : list Event) : list Z :=
  match tr with
  | [] => []
  | EStep Azimuth v :: rest =>
      match ax with Azimuth => v :: steps_of ax rest | Elevation => steps_of ax rest end
  | EStep Elevation v :: rest =>
      match ax with Elevation => v :: steps_of ax rest | Azimuth => steps_of ax rest end
  | _ :: rest => steps_of ax rest
  end.

(** [v] lies within the closed interval [limits]. *)
Definition within (limits : Q * Q) (v : Q) : Prop :=
  (fst limits <= v)%Q /\ (v <= snd limits)%Q.

(** The interval [limits] mirrored around zero. *)
Definition negated (limits : Q * Q) : Q * Q := ((- snd limits)%Q, (- fst limits)%Q).

(** The PID capability clamps: called on an object configured with [limits],
    it answers within [limits] and leaves the object's limits as they were. *)
Definition pid_clamps {PidMem : Type} (pid_call : PID PidMem -> Q -> Q * PID PidMem)
    (limits : Q * Q) : Prop :=
  forall p x, output_limits p = limits ->
    within limits (fst (pid_call p x)) /\ output_limits (snd (pid_call p x)) = limits.

(** Truncating a correction cannot leave [limits]: zero is inside, or both
    bounds are whole numbers. *)
Definition truncation_safe (limits : Q * Q) : Prop :=
  ((fst limits <= 0)%Q /\ (0 <= snd limits)%Q) \/
  (exists lo hi : Z, (fst limits == inject_Z lo)%Q /\ (snd limits == inject_Z hi)%Q).

(** Both PID objects exist and carry [limits]. *)
Definition pids_configured {PidMem : Type} (w : World PidMem) (limits : Q * Q) : Prop :=
  (exists p, elevation_pid (self w) = Some p /\ output_limits p = limits) /\
  (exists p, azimuth_pid (self w) = Some p /\ output_limits p = limits).

(** Events that restore a fusion mode, commit a calibration or enter
    calibration mode. *)
Definition mode_or_commit (e : Event) : bool :=
  match e with
  | EMode _ | ESaveCalibration _ _ | EPrepareCalibration _ => true
  | _ => false
  end.

(** The three sensor calibrations, by sensor kind. *)
Definition auto_calibrate {PidMem : Type} (env : Env) (k : SensorKind) (fuel : nat)
    (w : World PidMem) : Result (Z * World PidMem) :=
  match k with
  | Accelerometer => auto_calibrate_accelerometer env fuel w
  | Magnetometer => auto_calibrate_magnetometer env fuel w
  | Gyroscope => auto_calibrate_gyroscope env fuel w
  end.


(** The other axis. *)
Definition cross (ax : Axis) : Axis :=
  match ax with Azimuth => Elevation | Elevation => Azimuth end.

(** The setup of a range calibrator as C6 words it: among the events of the
    setup, a position command for the cross-axis and none for the target. *)
Definition moves_cross_axis_only (target : Axis) (events : list Event) : Prop :=
  (exists v, In (ESetPosition (cross target) v) events) /\
  (forall v, ~ In (ESetPosition target v) events).

(** [w'] has the controller attributes and the timer of [w]. *)
Definition same_controller {PidMem : Type} (w w' : World PidMem) : Prop :=
  self w' = self w /\ pid_loop_timer w' = pid_loop_timer w.

(** Calls on the actuator of axis [ax]. *)
Definition commands_axis (ax : Axis) (e : Event) : bool :=
  match e with
  | ESetPosition a _ | EStep a _ | ESetMinPosition a _ | ESetMaxPosition a _ =>
      match a, ax with
      | Azimuth, Azimuth | Elevation, Elevation => true
      | _, _ => false
      end
  | _ => false
  end.

(** Calls on either actuator. *)
Definition commands_actuator (e : Event) : bool :=
  commands_axis Azimuth e || commands_axis Elevation e.

(** [w'] is [w] after more events, none of which satisfies [p]. *)
Definition extends_without {PidMem : Type} (p : Event -> bool) (w w' : World PidMem)
    : Prop :=
  exists mid, trace w' = trace w ++ mid /\ Forall (fun e => p e = false) mid.

(** What a sweep of axis [ax] leaves alone: the controller, the timer, the
    other servo, the nominal bounds of the swept servo; and it sends nothing
    to the other actuator. *)
Definition sweep_frame {PidMem : Type} (ax : Axis) (w w' : World PidMem) : Prop :=
  same_controller w w' /\
  servo (cross ax) w' = servo (cross ax) w /\
  min_position (servo ax w') = min_position (servo ax w) /\
  max_position (servo ax w') = max_position (servo ax w) /\
  extends_without (commands_axis (cross ax)) w w'.

(** What the gyroscope loop leaves alone: the controller, the timer, both
    servos; and it sends nothing to an actuator. *)
Definition still {PidMem : Type} (w w' : World PidMem) : Prop :=
  same_controller w w' /\ azimuth w' = azimuth w /\ elevation w' = elevation w /\
  extends_without commands_actuator w w'.

(** The script read by [imu_get] on axis [ax]. *)
Definition imu_script (env : Env) (ax : Axis) : nat -> Q :=
  match ax with Azimuth => imu_azimuth env | Elevation => imu_elevation env end.

(** The public methods a client calls on a controller, and [CTick] for the
    timer firing its handler. *)
Inductive Command :=
| CSetAzimuth (deg : Q)
| CSetElevation (deg : Q)
| CSetCoordinates (az el : Q)
| CGetAzimuth
| CGetElevation
| COrient
| CStart
| CStop
| CTick
| CCalibrateSensor (k : SensorKind) (fuel : nat)
| CCalibrateElevationServo (us : Z) (d t : Q)
| CCalibrateAzimuthServo (us : Z) (d t : Q).

Section Sessions.

Context {PidMem : Type} (pid_call : PID PidMem -> Q -> Q * PID PidMem) (env : Env).

Definition run_command (c : Command) (w : World PidMem) : Result (World PidMem) :=
  match c with
  | CSetAzimuth deg => Return (set_azimuth deg w)
  | CSetElevation deg => Return (set_elevation deg w)
  | CSetCoordinates az el => Return (set_coordinates az el w)
  | CGetAzimuth => Return (snd (get_azimuth env w))
  | CGetElevation => Return (snd (get_elevation env w))
  | COrient => Return (snd (orient env w))
  | CStart => start env w
  | CStop => Return (stop w)
  | CTick => pid_loop pid_call env w
  | CCalibrateSensor k fuel =>
      match auto_calibrate env k fuel w with
      | Return (_, w') => Return w'
      | Raise e => Raise e
      | OutOfFuel => OutOfFuel
      end
  | CCalibrateElevationServo us d t => auto_calibrate_elevation_servo env us d t w
  | CCalibrateAzimuthServo us d t => auto_calibrate_azimuth_servo env us d t w
  end.

(** A session: the commands run one after the other, until one raises or
    hangs. *)
Fixpoint run (cs : list Command) (w : World PidMem) : Result (World PidMem) :=
  match cs with
  | [] => Return w
  | c :: rest =>
      match run_command c w with
      | Return w' => run rest w'
      | Raise e => Raise e
      | OutOfFuel => OutOfFuel
      end
  end.

(** Both PID objects exist. *)
Definition has_pids (w : World PidMem) : Prop :=
  elevation_pid (self w) <> None /\ azimuth_pid (self w) <> None.

(** A command ends well: it returns a world with [P], hangs, or raises the
    [ValueError] of a zero sweep step. *)
Definition ends_well (P : World PidMem -> Prop) (r : Result (World PidMem)) : Prop :=
  match r with
  | Return w' => P w'
  | Raise e => e = ValueError
  | OutOfFuel => True
  end.

(** What every command keeps: the PID objects once built, the deadzone once
    probed. *)
Definition kept (w w' : World PidMem) : Prop :=
  (has_pids w -> has_pids w') /\
  (deadzone (self w) <> None -> deadzone (self w') <> None).

End Sessions.


(** A position command within the bounds [(la, ha)] of the azimuth servo or
    [(le, he)] of the elevation servo; any other event. *)
Definition position_within (la ha le he : Z) (e : Event) : Prop :=
  match e with
  | ESetPosition Azimuth v => la <= v <= ha
  | ESetPosition Elevation v => le <= v <= he
  | _ => True
  end.

(** [w'] is [w] after more events, all of which satisfy [P]. *)
Definition extends_with {PidMem : Type} (P : Event -> Prop) (w w' : World PidMem)
    : Prop :=
  exists mid, trace w' = trace w ++ mid /\ Forall P mid.

(** The state of the raster of [auto_calibrate_magnetometer]: the servo bounds
    are [(la, ha)] and [(le, he)] and both offsets point inside them. *)
Definition raster_ok {PidMem : Type} (la ha le he count count_2 : Z)
    (w : World PidMem) : Prop :=
  min_position (azimuth w) = la /\ max_position (azimuth w) = ha /\
  min_position (elevation w) = le /\ max_position (elevation w) = he /\
  0 <= count /\ count + la <= ha /\ 0 <= count_2 /\ count_2 + le <= he.

(** What a sweep of axis [ax] from [w] to [w'] reports and records: if it
    printed that movement was detected at [i], the swept servo's [min_us] is
    [i + 100]; if it printed that no movement was detected at [i], the
    servo's [max_us] is [i - 100]. *)
Definition records_what_it_reports {PidMem : Type} (ax : Axis) (w w' : World PidMem)
    : Prop :=
  exists mid,
    trace w' = trace w ++ mid /\
    (forall i, In (EPrint (MsgMovement i)) mid -> min_us (servo ax w') = i + 100) /\
    (forall i, In (EPrint (MsgNoMovement i)) mid -> max_us (servo ax w') = i - 100).

(** The same once [moving] is set: no further detection of movement is
    printed and [min_us] stays. *)
Definition records_the_stop {PidMem : Type} (ax : Axis) (w w' : World PidMem) : Prop :=
  min_us (servo ax w') = min_us (servo ax w) /\
  exists mid,
    trace w' = trace w ++ mid /\
    (forall i, ~ In (EPrint (MsgMovement i)) mid) /\
    (forall i, In (EPrint (MsgNoMovement i)) mid -> max_us (servo ax w') = i - 100).

(** Events that are neither of the two reports. *)
Definition silent (e : Event) : Prop :=
  forall i, e <> EPrint (MsgMovement i) /\ e <> EPrint (MsgNoMovement i).

Section PollingVocabulary.

Context {PidMem : Type} (env : Env).
Implicit Types (w : World PidMem).

(** [w'] is [w] after events that neither enter calibration mode, restore a
    mode nor commit. *)
Definition calm w w' : Prop :=
  fusion_mode (imu w') = fusion_mode (imu w) /\
  saves (imu w') = saves (imu w) /\
  exists mid, trace w' = trace w ++ mid /\
              Forall (fun e => mode_or_commit e = false) mid.

(** The confidence seen [n] polls from now: the level at hand when [n = 0]. *)
Definition level_after (k : SensorKind) (n : nat) (level : Z) w : Z :=
  match n with
  | O => level
  | S j => imu_status env k (status_polls (imu w) + j)
  end.

(** One iteration of a polling loop, on its local variables [l]: it polls the
    confidence once and is otherwise calm. *)
Definition polls_once (k : SensorKind) {L : Type}
    (body : L -> World PidMem -> Z * L * World PidMem) : Prop :=
  forall l w,
    fst (fst (body l w)) = imu_status env k (status_polls (imu w)) /\
    status_polls (imu (snd (body l w))) = S (status_polls (imu w)) /\
    calm w (snd (body l w)).

(** The bodies of the accelerometer and magnetometer loops with their local
    variables gathered in one tuple. *)
Definition accelerometer_step (l : Z * Q) w : Z * (Z * Q) * World PidMem :=
  let '(level, prev, start0, w') := accelerometer_body env (fst l) (snd l) w in
  (level, (prev, start0), w').

Definition magnetometer_step (l : Z * Q * Z * Z) w
    : Z * (Z * Q * Z * Z) * World PidMem :=
  let '(level, prev, start0, count, count_2, w') :=
    magnetometer_body env (fst (fst (fst l))) (snd (fst (fst l)))
                      (snd (fst l)) (snd l) w in
  (level, (prev, start0, count, count_2), w').

End PollingVocabulary.

(** ** Properties *)

Lemma Qlt_bool_iff (x y : Q) : Qlt_bool x y = true <-> (x < y)%Q.
Proof.
  unfold Qlt_bool. rewrite negb_true_iff. split.
  - intros H. apply Qnot_le_lt. intros Hle.
    apply Qle_bool_iff in Hle. congruence.
  - intros H. destruct (Qle_bool y x) eqn:E; [|reflexivity].
    apply Qle_bool_iff in E. exfalso. exact (Qlt_not_le _ _ H E).
Qed.

Lemma Qlt_bool_false_iff (x y : Q) : Qlt_bool x y = false <-> (y <= x)%Q.
Proof.
  unfold Qlt_bool. rewrite negb_false_iff. apply Qle_bool_iff.
Qed.

Section SetpointStore.

Context {PidMem : Type}.
Implicit Types (w : World PidMem) (deg : Q).

Lemma in_deadzone_iff (dz : list (Q * Q)) deg :
  in_deadzone dz deg = true <-> Exists (strictly_inside deg) dz.
Proof.
  induction dz as [|[lo hi] dz IH]; simpl.
  - split; [discriminate | intros H; inversion H].
  - destruct (Qlt_bool lo deg && Qlt_bool deg hi) eqn:E.
    + split; [intros _|reflexivity].
      apply andb_true_iff in E. destruct E as [E1 E2].
      apply Exists_cons_hd. split; simpl; now apply Qlt_bool_iff.
    + rewrite IH. split; [apply Exists_cons_tl|].
      intros H. inversion H as [? ? [H1 H2]|]; subst; [|assumption].
      simpl in H1, H2. apply Qlt_bool_iff in H1, H2.
      rewrite H1, H2 in E. discriminate.
Qed.

Lemma set_azimuth_rejected w deg :
  azimuth_rejected w deg ->
  exists m, In m [MsgMustOrient; MsgOutOfServoLimit] /\ set_azimuth deg w = print m w.
Proof.
  unfold azimuth_rejected, set_azimuth.
  destruct (deadzone (self w)) as [dz|].
  - intros H. apply in_deadzone_iff in H. rewrite H.
    exists MsgOutOfServoLimit. simpl. auto.
  - intros _. exists MsgMustOrient. simpl. auto.
Qed.

Lemma set_azimuth_accepted w deg :
  ~ azimuth_rejected w deg ->
  set_azimuth deg w = with_self (set_new_azimuth deg) w.
Proof.
  unfold azimuth_rejected, set_azimuth.
  destruct (deadzone (self w)) as [dz|]; [|tauto].
  intros H. destruct (in_deadzone dz deg) eqn:E; [|reflexivity].
  apply in_deadzone_iff in E. contradiction.
Qed.

(** C1.  [set_azimuth(deg)]: when the deadzone is unset or [deg] lies strictly
    inside one of its intervals, the call is one [print] and nothing else, so
    the azimuth setpoint is as before; otherwise the call is the assignment
    of [deg] to the azimuth setpoint. *)
Theorem set_azimuth_gate w deg :
  (azimuth_rejected w deg ->
     new_azimuth (self (set_azimuth deg w)) = new_azimuth (self w) /\
     exists m, In m [MsgMustOrient; MsgOutOfServoLimit] /\
               set_azimuth deg w = print m w) /\
  (~ azimuth_rejected w deg ->
     new_azimuth (self (set_azimuth deg w)) = deg /\
     set_azimuth deg w = with_self (set_new_azimuth deg) w).
Proof.
  split; intros H.
  - destruct (set_azimuth_rejected w deg H) as (m & Hm & E).
    split; [rewrite E; reflexivity | eauto].
  - pose proof (set_azimuth_accepted w deg H) as E.
    split; [rewrite E; reflexivity | exact E].
Qed.

(** C10.  [set_coordinates(az, el)] with a rejected [az]: the elevation
    setpoint is [el] all the same, the azimuth setpoint is as before, and the
    call is [set_elevation(el)] followed by one [print]. *)
Theorem set_coordinates_not_atomic w az el :
  azimuth_rejected w az ->
  new_elevation (self (set_coordinates az el w)) = el /\
  new_azimuth (self (set_coordinates az el w)) = new_azimuth (self w) /\
  exists m, In m [MsgMustOrient; MsgOutOfServoLimit] /\
            set_coordinates az el w = print m (set_elevation el w).
Proof.
  intros H. unfold set_coordinates.
  assert (H' : azimuth_rejected (set_elevation el w) az) by exact H.
  destruct (set_azimuth_rejected _ _ H') as (m & Hm & E).
  rewrite E. repeat split; eauto.
Qed.

End SetpointStore.

Section ShortestArc.

Lemma Qabs_minus_swap (a b : Q) : Qabs (a - b) = Qabs (b - a).
Proof.
  destruct a as [an ad], b as [bn bd].
  unfold Qabs, Qminus, Qplus, Qopp. simpl.
  f_equal.
  - replace (bn * Z.pos ad + - an * Z.pos bd)
      with (- (an * Z.pos bd + - bn * Z.pos ad)) by ring.
    apply eq_sym, Z.abs_opp.
  - apply Pos.mul_comm.
Qed.

(** C4.  [get_delta] is symmetric, equals [|a - b|] when that is at most 180
    and [360 - |a - b|] otherwise; [get_delta(350, 10) = 20] and
    [get_delta(10, 20) = 10]. *)
Theorem get_delta_shortest_arc :
  (forall a b, get_delta a b = get_delta b a) /\
  (forall a b, (Qabs (a - b) <= 180)%Q -> get_delta a b = Qabs (a - b)) /\
  (forall a b, ~ (Qabs (a - b) <= 180)%Q ->
               get_delta a b = (360 - Qabs (a - b))%Q) /\
  get_delta 350 10 = 20%Q /\
  get_delta 10 20 = 10%Q.
Proof.
  repeat split.
  - intros a b. unfold get_delta. now rewrite (Qabs_minus_swap a b).
  - intros a b H. unfold get_delta. cbv zeta.
    apply Qlt_bool_false_iff in H. now rewrite H.
  - intros a b H. unfold get_delta. cbv zeta.
    destruct (Qlt_bool 180 (Qabs (a - b))) eqn:E; [reflexivity|].
    apply Qlt_bool_false_iff in E. contradiction.
Qed.

End ShortestArc.

Section Orientation.

(** C3.  [orient()] stores the deadzone it returns; with [min_azimuth] the
    reading taken at the minimum bound and [max_azimuth] the one taken at the
    maximum bound, the deadzone is [[(min_azimuth, 360), (0, max_azimuth)]]
    when [min_azimuth > max_azimuth] and [[(min_azimuth, max_azimuth)]]
    otherwise.  Readings 300 then 30 give [[(300, 360), (0, 30)]]; readings
    10 then 350 give [[(10, 350)]]. *)
Theorem orient_deadzone :
  (forall (PidMem : Type) (env : Env) (w : World PidMem),
     let min_azimuth := imu_azimuth env (azimuth_reads (imu w)) in
     let max_azimuth := imu_azimuth env (S (azimuth_reads (imu w))) in
     trace (snd (orient env w)) =
       trace w ++ [ESetPosition Azimuth (get_min_position Azimuth w); ESleep 1;
                   EGetAzimuth min_azimuth;
                   ESetPosition Azimuth (get_max_position Azimuth w); ESleep 1;
                   EGetAzimuth max_azimuth] /\
     deadzone (self (snd (orient env w))) = Some (fst (orient env w)) /\
     ((max_azimuth < min_azimuth)%Q ->
        fst (orient env w) = [(min_azimuth, 360%Q); (0%Q, max_azimuth)]) /\
     (~ (max_azimuth < min_azimuth)%Q ->
        fst (orient env w) = [(min_azimuth, max_azimuth)])) /\
  fst (orient (sim_azimuths [300; 30] 0)
              (sim_controller (sim_azimuths [300; 30] 0) (-20, 20)))%Q
    = [(300, 360); (0, 30)]%Q /\
  fst (orient (sim_azimuths [10; 350] 0)
              (sim_controller (sim_azimuths [10; 350] 0) (-20, 20)))%Q
    = [(10, 350)]%Q.
Proof.
  split; [|split; reflexivity].
  intros PidMem env w. cbv zeta. unfold orient. cbn.
  split; [now rewrite <- !app_assoc|].
  split; [reflexivity|]. split; intros H.
  - apply Qlt_bool_iff in H. now rewrite H.
  - destruct (Qlt_bool _ _) eqn:E; [|reflexivity].
    apply Qlt_bool_iff in E. contradiction.
Qed.

End Orientation.

Section Construction.

(** C7, as the code has it.  [__init__] leaves both setpoints, and the
    setpoints of both PID objects, at 0; what it sends to mid-range is the
    actuators: each is commanded to [int((max_position - min_position) / 2)]. *)
Theorem init_setpoints_zero (PidMem : Type) (pid_fresh : PidMem) (env : Env)
    (azimuth0 elevation0 : Servo) (imu0 : Imu)
    (limits : Q * Q) (frequency : Z) (p i d : Q) :
  let w := init pid_fresh env azimuth0 elevation0 imu0 limits frequency p i d in
  new_azimuth (self w) = 0%Q /\
  new_elevation (self w) = 0%Q /\
  option_map setpoint (azimuth_pid (self w)) = Some 0%Q /\
  option_map setpoint (elevation_pid (self w)) = Some 0%Q /\
  trace w =
    [EPrint (MsgTimerId (config_pid_timer_id env));
     ESetPosition Elevation
       (half_range (min_position elevation0) (max_position elevation0));
     ESetPosition Azimuth
       (half_range (min_position azimuth0) (max_position azimuth0))].
Proof.
  cbv zeta. repeat split.
Qed.

(** C7, as stated, fails: on two servos of range 0..4095 the setpoints after
    construction are neither the midpoint 4095/2 nor its truncation 2047. *)
Lemma init_setpoints_not_mid_range :
  let w := sim_controller (sim_pointing 0 0) (-20, 20)%Q in
  ~ (new_azimuth (self w) == mid_range servo_12bit)%Q /\
  ~ (new_elevation (self w) == mid_range servo_12bit)%Q /\
  ~ (new_azimuth (self w) == inject_Z (half_range 0 4095))%Q /\
  ~ (new_elevation (self w) == inject_Z (half_range 0 4095))%Q.
Proof.
  cbv zeta. repeat split; intros H; vm_compute in H; discriminate.
Qed.

End Construction.

Section Start.

Context {PidMem : Type} (env : Env).
Implicit Types (w : World PidMem).

(** C8.  On a controller whose PID objects exist, [start()] reads the
    elevation and the azimuth from the sensor, stores them in the two
    setpoints and in the setpoints of the two PID objects, and then, on the
    world [w1] so obtained and with the timer untouched until there, arms the
    timer with the configured period and the tick handler. *)
Theorem start_loads_setpoints_then_arms w (pa pe : PID PidMem) :
  azimuth_pid (self w) = Some pa ->
  elevation_pid (self w) = Some pe ->
  let el := imu_elevation env (elevation_reads (imu w)) in
  let az := imu_azimuth env (azimuth_reads (imu w)) in
  exists w1,
    start env w = Return (timer_init (pid_frequency (self w)) PidLoop w1) /\
    new_elevation (self w1) = el /\
    new_azimuth (self w1) = az /\
    azimuth_pid (self w1) = Some (pid_set_setpoint az pa) /\
    elevation_pid (self w1) = Some (pid_set_setpoint el pe) /\
    pid_loop_timer w1 = pid_loop_timer w /\
    trace w1 = trace w ++ [EGetElevation el; EGetAzimuth az].
Proof.
  intros Ha He. cbv zeta. unfold start, start_pid_loop. cbn.
  rewrite Ha. cbn. rewrite He. cbn.
  eexists. split; [reflexivity|]. cbn.
  repeat split. now rewrite <- app_assoc.
Qed.

End Start.

Lemma py_int_floor_ceiling (x : Q) :
  py_int x = if 0 <=? Qnum x then Qfloor x else Qceiling x.
Proof.
  destruct x as [n d]. unfold py_int, Qceiling, Qfloor. simpl.
  destruct (Z.leb_spec 0 n) as [H|H].
  - apply Z.quot_div_nonneg; lia.
  - replace n with (- - n) at 1 by lia.
    rewrite Z.quot_opp_l by lia. f_equal.
    apply Z.quot_div_nonneg; lia.
Qed.

Lemma Qnum_nonneg (x : Q) : 0 <= Qnum x <-> (0 <= x)%Q.
Proof. destruct x as [n d]. unfold Qle. simpl. lia. Qed.

Lemma py_int_within (limits : Q * Q) (x : Q) :
  truncation_safe limits -> within limits x -> within limits (inject_Z (py_int x)).
Proof.
  destruct limits as [lo hi]. unfold truncation_safe, within. simpl.
  intros Hs [Hlo Hhi]. rewrite py_int_floor_ceiling.
  destruct (Z.leb_spec 0 (Qnum x)) as [H|H].
  - apply Qnum_nonneg in H. split.
    + destruct Hs as [[Hl _]|(l & h & El & _)].
      * apply Qle_trans with 0%Q; [assumption|].
        change 0%Q with (inject_Z 0). rewrite <- Zle_Qle.
        rewrite <- (Qfloor_Z 0). now apply Qfloor_resp_le.
      * rewrite El. rewrite <- Zle_Qle. rewrite <- (Qfloor_Z l).
        apply Qfloor_resp_le. now rewrite <- El.
    + apply Qle_trans with x; [apply Qfloor_le | assumption].
  - assert (Hx : (x <= 0)%Q).
    { destruct x as [n d]. unfold Qle. simpl in *. lia. }
    split.
    + apply Qle_trans with x; [assumption | apply Qle_ceiling].
    + destruct Hs as [[_ Hh]|(l & h & _ & Eh)].
      * apply Qle_trans with 0%Q; [|assumption].
        change 0%Q with (inject_Z 0). rewrite <- Zle_Qle.
        rewrite <- (Qceiling_Z 0). now apply Qceiling_resp_le.
      * rewrite Eh. rewrite <- Zle_Qle. rewrite <- (Qceiling_Z h).
        apply Qceiling_resp_le. now rewrite <- Eh.
Qed.

Lemma within_negated (limits : Q * Q) (v : Z) :
  within limits (inject_Z v) -> within (negated limits) (inject_Z (v * -1)).
Proof.
  destruct limits as [lo hi]. unfold within, negated. simpl. intros [Hlo Hhi].
  replace (v * -1) with (- v) by lia. rewrite inject_Z_opp.
  split; now apply Qopp_le_compat.
Qed.

Lemma within_symmetric (limits : Q * Q) (v : Q) :
  (fst limits == - snd limits)%Q -> within (negated limits) v -> within limits v.
Proof.
  destruct limits as [lo hi]. unfold within, negated. simpl. intros E [H1 H2].
  split.
  - now rewrite E.
  - rewrite E in H2. now rewrite Qopp_involutive in H2.
Qed.

Lemma steps_of_app ax tr1 tr2 : steps_of ax (tr1 ++ tr2) = steps_of ax tr1 ++ steps_of ax tr2.
Proof.
  induction tr1 as [|e tr1 IH]; [reflexivity|].
  destruct e; simpl; try exact IH; destruct ax0, ax; simpl; now rewrite ?IH.
Qed.

Lemma Qclamp_within (lo hi x : Q) : (lo <= hi)%Q -> within (lo, hi) (Qclamp lo hi x).
Proof.
  intros H. unfold Qclamp, within. simpl.
  destruct (Qlt_bool x lo) eqn:E1.
  - split; [apply Qle_refl | exact H].
  - destruct (Qlt_bool hi x) eqn:E2.
    + split; [exact H | apply Qle_refl].
    + split; now apply Qlt_bool_false_iff.
Qed.

Lemma p_only_clamps (limits : Q * Q) :
  (fst limits <= snd limits)%Q -> pid_clamps p_only_call limits.
Proof.
  intros H p x E. unfold p_only_call. simpl. rewrite E. split; [|reflexivity].
  destruct limits as [lo hi]. now apply Qclamp_within.
Qed.

Section Ticks.

Context {PidMem : Type} (pid_call : PID PidMem -> Q -> Q * PID PidMem) (env : Env).
Context (limits : Q * Q).
Hypothesis Hclamp : pid_clamps pid_call limits.
Hypothesis Hsafe : truncation_safe limits.
Implicit Types (w : World PidMem).

Lemma pid_loop_step w :
  pids_configured w limits ->
  exists w' el_duty az_duty,
    pid_loop pid_call env w = Return w' /\
    trace w' = trace w ++ [EGetElevation (imu_elevation env (elevation_reads (imu w)));
                           EGetAzimuth (imu_azimuth env (azimuth_reads (imu w)));
                           EStep Elevation el_duty; EStep Azimuth az_duty] /\
    within limits (inject_Z el_duty) /\
    within (negated limits) (inject_Z az_duty) /\
    pids_configured w' limits.
Proof.
  intros [(pe & He & Le) (pa & Ha & La)].
  unfold pid_loop. rewrite He. cbn. rewrite Ha. cbn.
  destruct (Hclamp (pid_set_setpoint (new_elevation (self w)) pe)
                   (imu_elevation env (elevation_reads (imu w))) Le) as [We Le'].
  destruct (Hclamp (pid_set_setpoint (new_azimuth (self w)) pa)
                   (imu_azimuth env (azimuth_reads (imu w))) La) as [Wa La'].
  destruct (pid_call (pid_set_setpoint (new_elevation (self w)) pe) _) as [out_el pe'].
  cbn.
  destruct (pid_call (pid_set_setpoint (new_azimuth (self w)) pa) _) as [out_az pa'].
  cbn in *.
  eexists _, (py_int out_el), (py_int out_az * -1).
  split; [reflexivity|]. cbn.
  split; [now rewrite <- !app_assoc|].
  split; [now apply py_int_within|].
  split; [now apply within_negated, py_int_within|].
  split; eexists; split; try reflexivity; assumption.
Qed.

(** C2, as the code has it.  With a PID capability that clamps to the
    configured limits, and limits that truncation cannot leave (zero inside,
    or whole bounds), [n] ticks succeed and issue [n] steps per axis; every
    elevation step lies within the limits, every azimuth step, being negated,
    lies within the limits mirrored around zero, hence within the limits
    themselves when these are symmetric, as the default (-20, 20) is.  No
    assumption on setpoints or readings is needed. *)
Theorem ticks_corrections_bounded (n : nat) w :
  pids_configured w limits ->
  exists w' tr,
    ticks pid_call env n w = Return w' /\
    trace w' = trace w ++ tr /\
    length (steps_of Elevation tr) = n /\
    length (steps_of Azimuth tr) = n /\
    Forall (fun v => within limits (inject_Z v)) (steps_of Elevation tr) /\
    Forall (fun v => within (negated limits) (inject_Z v)) (steps_of Azimuth tr) /\
    ((fst limits == - snd limits)%Q ->
     Forall (fun v => within limits (inject_Z v)) (steps_of Azimuth tr)).
Proof.
  revert w. induction n as [|n IH]; intros w Hw.
  - exists w, []. simpl. rewrite app_nil_r. repeat split; constructor.
  - destruct (pid_loop_step w Hw) as (w1 & el_duty & az_duty & E1 & T1 & We & Wa & Hw1).
    destruct (IH w1 Hw1) as (w' & tr & E & T & Le & La & Fe & Fa & Fs).
    eexists w', (_ ++ tr). simpl. rewrite E1.
    split; [exact E|].
    split; [rewrite T, T1; now rewrite <- app_assoc|].
    rewrite !steps_of_app. simpl.
    repeat split; try (now f_equal); try (constructor; assumption).
    intros Hsym. constructor; [now apply within_symmetric | now apply Fs].
Qed.
End Ticks.

(** C2, as stated, fails.  With limits (-10, 20), a clamping PID, azimuth
    setpoint 355 and a platform at rest at azimuth 300, the first tick steps
    the azimuth actuator by -20, below the lower limit.  With limits
    (1/2, 20), setpoint 0 and a platform at rest at elevation 45, the clamped
    correction 1/2 is truncated and the elevation actuator is stepped by 0,
    again below the lower limit. *)
Lemma corrections_outside_limits :
  (let env := sim_azimuths [10; 350]%Q 300%Q in
   let w := set_azimuth 355 (snd (orient env (sim_controller env (-10, 20)%Q))) in
   pid_clamps p_only_call (-10, 20)%Q /\
   pids_configured w (-10, 20)%Q /\
   new_azimuth (self w) = 355%Q /\
   exists w',
     ticks p_only_call env 1 w = Return w' /\
     steps_of Azimuth (skipn (length (trace w)) (trace w')) = [-20] /\
     ~ within (-10, 20)%Q (inject_Z (-20))) /\
  (let env := sim_pointing 90 45 in
   let w := sim_controller env (1 # 2, 20)%Q in
   pid_clamps p_only_call (1 # 2, 20)%Q /\
   pids_configured w (1 # 2, 20)%Q /\
   exists w',
     ticks p_only_call env 1 w = Return w' /\
     steps_of Elevation (skipn (length (trace w)) (trace w')) = [0] /\
     ~ within (1 # 2, 20)%Q (inject_Z 0)).
Proof.
  cbv zeta. split.
  - split; [apply p_only_clamps; discriminate|].
    split; [split; eexists; split; vm_compute; reflexivity|].
    split; [vm_compute; reflexivity|].
    match goal with |- exists w', ?t = Return w' /\ _ =>
      let r := eval vm_compute in t in
      match r with Return ?w0 => exists w0 end end.
    split; [vm_compute; reflexivity|]. split; [vm_compute; reflexivity|].
    intros [H _]. vm_compute in H. now apply H.
  - split; [apply p_only_clamps; discriminate|].
    split; [split; eexists; split; vm_compute; reflexivity|].
    match goal with |- exists w', ?t = Return w' /\ _ =>
      let r := eval vm_compute in t in
      match r with Return ?w0 => exists w0 end end.
    split; [vm_compute; reflexivity|]. split; [vm_compute; reflexivity|].
    intros [H _]. vm_compute in H. now apply H.
Qed.

Section Calm.
Context {PidMem : Type}.
Implicit Types (w : World PidMem).

Lemma calm_refl w : calm w w.
Proof.
  repeat split. exists []. split; [now rewrite app_nil_r | constructor].
Qed.

Lemma calm_trans w1 w2 w3 : calm w1 w2 -> calm w2 w3 -> calm w1 w3.
Proof.
  intros (F1 & S1 & m1 & T1 & Q1) (F2 & S2 & m2 & T2 & Q2).
  split; [congruence|]. split; [congruence|].
  exists (m1 ++ m2). split.
  - rewrite T2, T1. now rewrite app_assoc.
  - apply Forall_app. now split.
Qed.

End Calm.

Ltac calm_concrete :=
  unfold calm; cbn;
  split; [reflexivity|];
  split; [reflexivity|];
  eexists; split; [rewrite <- ?app_assoc; reflexivity | simpl; repeat constructor].

Section SensorCalibration.
Context {PidMem : Type} (env : Env).
Implicit Types (w : World PidMem).

Lemma polling_converges (k : SensorKind) {L : Type}
    (loop : nat -> Z -> L -> World PidMem -> Result (World PidMem))
    (body : L -> World PidMem -> Z * L * World PidMem) :
  (forall fuel level l w,
     loop fuel level l w =
       if level <? 3 then
         match fuel with
         | O => OutOfFuel
         | S fuel' => loop fuel' (fst (fst (body l w))) (snd (fst (body l w)))
                           (snd (body l w))
         end
       else Return w) ->
  polls_once env k body ->
  forall n fuel level l w,
    (n <= fuel)%nat ->
    3 <= level_after env k n level w ->
    exists w', loop fuel level l w = Return w' /\ calm w w'.
Proof.
  intros Hloop Hbody.
  assert (Hdone : forall fuel level l w, 3 <= level ->
            exists w', loop fuel level l w = Return w' /\ calm w w').
  { intros fuel level l w H. exists w. split; [|apply calm_refl].
    rewrite Hloop. apply Z.ltb_ge in H. now rewrite H. }
  induction n as [|j IH]; intros fuel level l w Hfuel Hreach.
  - now apply Hdone.
  - destruct (Z.ltb_spec level 3) as [Hlt|Hge]; [|now apply Hdone].
    destruct fuel as [|fuel]; [lia|].
    rewrite Hloop. apply Z.ltb_lt in Hlt. rewrite Hlt.
    destruct (Hbody l w) as (Hlevel & Hpolls & Hcalm).
    destruct (IH fuel (fst (fst (body l w))) (snd (fst (body l w)))
                 (snd (body l w))) as (w' & E & C).
    + lia.
    + rewrite Hlevel. unfold level_after in *. destruct j as [|j].
      * now rewrite Nat.add_0_r in Hreach.
      * rewrite Hpolls. simpl. now rewrite Nat.add_succ_r in Hreach.
    + exists w'. split; [exact E|]. now apply calm_trans with (snd (body l w)).
Qed.

Lemma gyroscope_body_polls_once :
  polls_once (PidMem := PidMem) env Gyroscope (gyroscope_body env).
Proof.
  intros prev w. unfold gyroscope_body, report_level. cbn.
  destruct (negb _); cbn; (split; [reflexivity|]); (split; [reflexivity|]);
    calm_concrete.
Qed.

Lemma accelerometer_body_polls_once :
  polls_once (PidMem := PidMem) env Accelerometer (accelerometer_step env).
Proof.
  intros [prev start0] w. unfold accelerometer_step, accelerometer_body, report_level. cbn.
  destruct (Qlt_bool 2 _); cbn; destruct (negb _); cbn;
    (split; [reflexivity|]); (split; [reflexivity|]); calm_concrete.
Qed.

Lemma magnetometer_body_polls_once :
  polls_once (PidMem := PidMem) env Magnetometer (magnetometer_step env).
Proof.
  intros [[[prev start0] count] count_2] w.
  unfold magnetometer_step, magnetometer_body, report_level. cbn.
  destruct (Qlt_bool 2 _); cbn.
  - destruct (_ <? _); cbn; destruct (negb _); cbn;
      (split; [reflexivity|]); (split; [reflexivity|]); calm_concrete.
  - destruct (negb _); cbn;
      (split; [reflexivity|]); (split; [reflexivity|]); calm_concrete.
Qed.

Lemma gyroscope_loop_converges n fuel level prev w :
  (n <= fuel)%nat ->
  3 <= level_after env Gyroscope n level w ->
  exists w', gyroscope_loop env fuel level prev w = Return w' /\ calm w w'.
Proof.
  refine (polling_converges Gyroscope (gyroscope_loop env) (gyroscope_body env)
            _ gyroscope_body_polls_once n fuel level prev w).
  intros [|f] lv l w0; [reflexivity|]. cbn [gyroscope_loop].
  destruct (lv <? 3); [|reflexivity].
  now destruct (gyroscope_body env l w0) as [[? ?] ?].
Qed.

Lemma accelerometer_loop_converges n fuel level prev start0 w :
  (n <= fuel)%nat ->
  3 <= level_after env Accelerometer n level w ->
  exists w', accelerometer_loop env fuel level prev start0 w = Return w' /\ calm w w'.
Proof.
  refine (polling_converges Accelerometer
            (fun fuel level l => accelerometer_loop env fuel level (fst l) (snd l))
            (accelerometer_step env) _ accelerometer_body_polls_once
            n fuel level (prev, start0) w).
  intros [|f] lv [p s] w0; [reflexivity|]. cbn [accelerometer_loop fst snd].
  destruct (lv <? 3); [|reflexivity].
  unfold accelerometer_step. cbn [fst snd].
  now destruct (accelerometer_body env p s w0) as [[[? ?] ?] ?].
Qed.

Lemma magnetometer_loop_converges n fuel level prev start0 count count_2 w :
  (n <= fuel)%nat ->
  3 <= level_after env Magnetometer n level w ->
  exists w', magnetometer_loop env fuel level prev start0 count count_2 w = Return w'
             /\ calm w w'.
Proof.
  refine (polling_converges Magnetometer
           (fun fuel level l =>
              magnetometer_loop env fuel level (fst (fst (fst l))) (snd (fst (fst l)))
                                (snd (fst l)) (snd l))
           (magnetometer_step env) _ magnetometer_body_polls_once
           n fuel level (prev, start0, count, count_2) w).
  intros [|f] lv [[[p s] c] c2] w0; [reflexivity|]. cbn [magnetometer_loop fst snd].
  destruct (lv <? 3); [|reflexivity].
  unfold magnetometer_step. cbn [fst snd].
  now destruct (magnetometer_body env p s c c2 w0) as [[[[[? ?] ?] ?] ?] ?].
Qed.

Lemma finish_calibration (k : SensorKind) (old_mode : Z) w w1 (pre : list Event) :
  saves (imu w1) = saves (imu w) ->
  trace w1 = trace w ++ EPrepareCalibration old_mode :: pre ->
  Forall (fun e => mode_or_commit e = false) pre ->
  let result := imu_save_result env k (saves (imu w)) in
  exists w' mid,
    imu_save_calibration env k (imu_mode old_mode (print (MsgCalibrationDone k) w1))
      = (result, w') /\
    trace w' = trace w ++ EPrepareCalibration old_mode :: mid
                       ++ [EMode old_mode; ESaveCalibration k result] /\
    Forall (fun e => mode_or_commit e = false) mid /\
    fusion_mode (imu w') = old_mode.
Proof.
  intros S T Q. cbv zeta. unfold imu_save_calibration. cbn. rewrite S.
  eexists _, (pre ++ [EPrint (MsgCalibrationDone k)]).
  split; [reflexivity|]. cbn.
  split; [rewrite T; now rewrite <- !app_assoc|].
  split; [|reflexivity].
  apply Forall_app. split; [exact Q | now repeat constructor].
Qed.

Ltac finish_with C :=
  let F := fresh "F" in
  let S := fresh "S" in
  let mid := fresh "mid" in
  let T := fresh "T" in
  let Q := fresh "Q" in
  destruct C as (F & S & mid & T & Q); cbn in S, T;
  rewrite <- !app_assoc in T; cbn in T;
  match type of T with
  | trace ?w1 = trace ?w ++ EPrepareCalibration ?old :: ?pre =>
      match goal with
      | |- context [imu_save_calibration env ?k _] =>
          destruct (finish_calibration k old w w1 pre S T) as (w' & mid' & E' & R');
          [ repeat (constructor; [reflexivity|]); exact Q
          | cbn; cbn in E'; rewrite E'; exists w', mid'; split; [reflexivity | exact R'] ]
      end
  end.

(** C9.  A sensor calibration whose confidence reaches 3 at the [n]-th poll
    after the first one returns, given [n] iterations of fuel or more: it
    returns the result of the commit; what it did is one entry into
    calibration mode, events that neither restore a mode nor commit, one
    restore of the mode saved at entry, and last one commit for that sensor
    kind; the sensor ends in the mode it started in. *)
Theorem calibration_restores_then_commits (k : SensorKind) (n fuel : nat) w :
  3 <= imu_status env k (status_polls (imu w) + n) ->
  (n <= fuel)%nat ->
  let old_mode := fusion_mode (imu w) in
  let result := imu_save_result env k (saves (imu w)) in
  exists w' mid,
    auto_calibrate env k fuel w = Return (result, w') /\
    trace w' = trace w ++ EPrepareCalibration old_mode :: mid
                       ++ [EMode old_mode; ESaveCalibration k result] /\
    Forall (fun e => mode_or_commit e = false) mid /\
    fusion_mode (imu w') = old_mode.
Proof.
  intros Hreach Hfuel. cbv zeta.
  assert (Hafter : forall level (w0 : World PidMem),
            status_polls (imu w0) = S (status_polls (imu w)) ->
            level = imu_status env k (status_polls (imu w)) ->
            3 <= level_after env k n level w0).
  { intros level w0 E0 El. unfold level_after. destruct n as [|j].
    - rewrite El. now rewrite Nat.add_0_r in Hreach.
    - rewrite E0. simpl. now rewrite Nat.add_succ_r in Hreach. }
  destruct k; unfold auto_calibrate.
  - unfold auto_calibrate_accelerometer. cbn.
    match goal with |- context [accelerometer_loop env fuel ?lv ?p ?s ?w0] =>
      destruct (accelerometer_loop_converges n fuel lv p s w0 Hfuel
                  (Hafter lv w0 eq_refl eq_refl)) as (w1 & E & C) end.
    rewrite E. finish_with C.
  - unfold auto_calibrate_magnetometer. cbn.
    match goal with |- context [magnetometer_loop env fuel ?lv ?p ?s ?c ?c2 ?w0] =>
      destruct (magnetometer_loop_converges n fuel lv p s c c2 w0 Hfuel
                  (Hafter lv w0 eq_refl eq_refl)) as (w1 & E & C) end.
    rewrite E. finish_with C.
  - unfold auto_calibrate_gyroscope. cbn.
    match goal with |- context [gyroscope_loop env fuel ?lv ?p ?w0] =>
      destruct (gyroscope_loop_converges n fuel lv p w0 Hfuel
                  (Hafter lv w0 eq_refl eq_refl)) as (w1 & E & C) end.
    rewrite E. finish_with C.
Qed.
End SensorCalibration.

Section ServoRange.

(** C6, as the code has it.  Both range calibrators reset the bounds of the
    target axis to 0..4095 and end their setup with a settle of 1 time unit
    followed by the baseline reading of the target axis.  In between, the
    azimuth calibrator commands the elevation actuator (its cross-axis) to
    2047, the value [int((max - min) / 2)] of the azimuth range just reset,
    and then the azimuth actuator, its own target, to the same value.  What
    the elevation calibrator commands in between is left open here. *)
Theorem servo_setup_events (PidMem : Type) (env : Env) (w : World PidMem) :
  (let r := azimuth_servo_setup env w in
   fst r = imu_azimuth env (azimuth_reads (imu w)) /\
   trace (snd r) =
     trace w ++ [ESetMinPosition Azimuth 0; ESetMaxPosition Azimuth 4095;
                 ESetPosition Elevation 2047; ESetPosition Azimuth 2047;
                 ESleep 1; EGetAzimuth (fst r)] /\
   get_min_position Azimuth (snd r) = 0 /\
   get_max_position Azimuth (snd r) = 4095) /\
  (let r := elevation_servo_setup env w in
   fst r = imu_elevation env (elevation_reads (imu w)) /\
   (exists mid,
      trace (snd r) =
        trace w ++ [ESetMinPosition Elevation 0; ESetMaxPosition Elevation 4095]
                ++ mid ++ [ESleep 1; EGetElevation (fst r)]) /\
   get_min_position Elevation (snd r) = 0 /\
   get_max_position Elevation (snd r) = 4095).
Proof.
  split; cbv zeta.
  - unfold azimuth_servo_setup. cbn.
    split; [reflexivity|]. split; [|split; reflexivity].
    now rewrite <- !app_assoc.
  - unfold elevation_servo_setup. cbn.
    split; [reflexivity|]. split; [|split; reflexivity].
    eexists [_]. now rewrite <- !app_assoc.
Qed.

(** C6, as stated, fails: in each calibrator's setup the target axis is
    commanded to a midpoint. *)
Lemma servo_setup_moves_target :
  let w := sim_controller sim_short_travel (-20, 20)%Q in
  ~ moves_cross_axis_only Elevation
      (skipn (length (trace w)) (trace (snd (elevation_servo_setup sim_short_travel w)))) /\
  ~ moves_cross_axis_only Azimuth
      (skipn (length (trace w)) (trace (snd (azimuth_servo_setup sim_short_travel w)))).
Proof.
  cbv zeta. split; intros [_ H].
  - apply (H 2047). vm_compute. auto.
  - apply (H 2047). vm_compute. auto 6.
Qed.

(** C5 on a run with step 50.  Motion is confirmed at position 100 and the
    stop at position 150; the bounds recorded are 100 + 100 and 150 - 100,
    not 100 + 50 and 150 - 50: the code adds and subtracts the constant 100
    where the claim has the step. *)
Theorem calibrators_ignore_step_size :
  let w := sim_controller sim_short_travel (-20, 20)%Q in
  (exists w',
     auto_calibrate_elevation_servo sim_short_travel 50 (1 # 2) (1 # 10) w = Return w' /\
     In (EPrint (MsgMovement 100)) (trace w') /\
     min_us (elevation w') = 100 + 100 /\
     min_us (elevation w') <> 100 + 50 /\
     In (EPrint (MsgNoMovement 150)) (trace w') /\
     max_us (elevation w') = 150 - 100 /\
     max_us (elevation w') <> 150 - 50) /\
  (exists w',
     auto_calibrate_azimuth_servo sim_short_travel 50 (1 # 2) (1 # 10) w = Return w' /\
     In (EPrint (MsgMovement 100)) (trace w') /\
     min_us (azimuth w') = 100 + 100 /\
     min_us (azimuth w') <> 100 + 50 /\
     In (EPrint (MsgNoMovement 150)) (trace w') /\
     max_us (azimuth w') = 150 - 100 /\
     max_us (azimuth w') <> 150 - 50).
Proof.
  cbv zeta. split.
  - match goal with |- exists w', ?t = Return w' /\ _ =>
      let r := eval vm_compute in t in
      match r with Return ?w0 => exists w0 end end.
    split; [vm_compute; reflexivity|].
    split; [vm_compute; tauto|].
    split; [vm_compute; reflexivity|].
    split; [vm_compute; discriminate|].
    split; [vm_compute; tauto|].
    split; [vm_compute; reflexivity|].
    vm_compute; discriminate.
  - match goal with |- exists w', ?t = Return w' /\ _ =>
      let r := eval vm_compute in t in
      match r with Return ?w0 => exists w0 end end.
    split; [vm_compute; reflexivity|].
    split; [vm_compute; tauto|].
    split; [vm_compute; reflexivity|].
    split; [vm_compute; discriminate|].
    split; [vm_compute; tauto|].
    split; [vm_compute; reflexivity|].
    vm_compute; discriminate.
Qed.

End ServoRange.

(** ** The theorems at concrete inputs *)

(** C10 on a controller oriented with deadzone [(10, 350)] and commanded to
    azimuth 120, elevation 45. *)
Lemma set_coordinates_not_atomic_witness :
  let env := sim_azimuths [10; 350]%Q 300%Q in
  let w := snd (orient env (sim_controller env (-20, 20)%Q)) in
  new_elevation (self (set_coordinates 120 45 w)) = 45%Q /\
  new_azimuth (self (set_coordinates 120 45 w)) = new_azimuth (self w) /\
  exists m, In m [MsgMustOrient; MsgOutOfServoLimit] /\
            set_coordinates 120 45 w = print m (set_elevation 45 w).
Proof.
  cbv zeta. apply set_coordinates_not_atomic.
  apply Exists_cons_hd. split; reflexivity.
Defined.

(** C8 on a freshly built controller with the platform at azimuth 12,
    elevation 34. *)
Lemma start_loads_setpoints_then_arms_witness :
  let env := sim_pointing 12 34 in
  let w := sim_controller env (-20, 20)%Q in
  exists w1,
    start env w = Return (timer_init 100 PidLoop w1) /\
    new_elevation (self w1) = 34%Q /\
    new_azimuth (self w1) = 12%Q /\
    azimuth_pid (self w1) = Some (mkPID unit 12 (-20, 20) 1 0 0 tt)%Q /\
    elevation_pid (self w1) = Some (mkPID unit 34 (-20, 20) 1 0 0 tt)%Q /\
    pid_loop_timer w1 = None /\
    trace w1 = trace w ++ [EGetElevation 34%Q; EGetAzimuth 12%Q].
Proof.
  cbv zeta.
  exact (start_loads_setpoints_then_arms (sim_pointing 12 34)
           (sim_controller (sim_pointing 12 34) (-20, 20)%Q) _ _ eq_refl eq_refl).
Defined.

(** C2 on three ticks of a freshly built controller with the default limits
    and the platform at rest at azimuth 90, elevation 45. *)
Lemma ticks_corrections_bounded_witness :
  let env := sim_pointing 90 45 in
  let w := sim_controller env (-20, 20)%Q in
  exists w' tr,
    ticks p_only_call env 3 w = Return w' /\
    trace w' = trace w ++ tr /\
    length (steps_of Elevation tr) = 3%nat /\
    length (steps_of Azimuth tr) = 3%nat /\
    Forall (fun v => within (-20, 20)%Q (inject_Z v)) (steps_of Elevation tr) /\
    Forall (fun v => within (negated (-20, 20)%Q) (inject_Z v)) (steps_of Azimuth tr) /\
    ((fst (-20, 20) == - snd (-20, 20))%Q ->
     Forall (fun v => within (-20, 20)%Q (inject_Z v)) (steps_of Azimuth tr)).
Proof.
  cbv zeta.
  apply (ticks_corrections_bounded p_only_call (sim_pointing 90 45) (-20, 20)%Q).
  - apply p_only_clamps. discriminate.
  - left. split; discriminate.
  - split; eexists; split; reflexivity.
Defined.

(** C9 on a gyroscope whose confidence reads 0, 1, 3: three polls. *)
Lemma calibration_restores_then_commits_witness :
  let env := sim_confidence [0; 1; 3] 3 in
  let w := sim_controller env (-20, 20)%Q in
  exists w' mid,
    auto_calibrate env Gyroscope 2 w = Return (1, w') /\
    trace w' = trace w ++ EPrepareCalibration 12 :: mid
                       ++ [EMode 12; ESaveCalibration Gyroscope 1] /\
    Forall (fun e => mode_or_commit e = false) mid /\
    fusion_mode (imu w') = 12.
Proof.
  cbv zeta.
  apply (calibration_restores_then_commits (sim_confidence [0; 1; 3] 3) Gyroscope 2 2
           (sim_controller (sim_confidence [0; 1; 3] 3) (-20, 20)%Q)).
  - vm_compute. discriminate.
  - apply le_n.
Defined.

(** C1 on a controller oriented with deadzone [(10, 350)]: azimuth 120 is
    refused with the servo-limit message, azimuth 5 and the bound 10 itself
    are accepted; before [orient] every azimuth is refused. *)
Example set_azimuth_examples :
  let env := sim_azimuths [10; 350]%Q 300%Q in
  let w0 := sim_controller env (-20, 20)%Q in
  let w := snd (orient env w0) in
  set_azimuth 120 w = print MsgOutOfServoLimit w /\
  new_azimuth (self (set_azimuth 5 w)) = 5%Q /\
  new_azimuth (self (set_azimuth 10 w)) = 10%Q /\
  set_azimuth 5 w0 = print MsgMustOrient w0.
Proof.
  cbv zeta.
  split; [vm_compute; reflexivity|].
  split; [vm_compute; reflexivity|].
  split; vm_compute; reflexivity.
Qed.

(** ** Further properties of the controller *)

Section ShortestArcRange.



End ShortestArcRange.

Section AfterOrient.
Context {PidMem : Type} (env : Env).
Implicit Types (w : World PidMem).

Lemma orient_deadzone_value w :
  deadzone (self (snd (orient env w))) =
    Some (if Qlt_bool (imu_azimuth env (S (azimuth_reads (imu w))))
                      (imu_azimuth env (azimuth_reads (imu w)))
          then [(imu_azimuth env (azimuth_reads (imu w)), 360%Q);
                (0%Q, imu_azimuth env (S (azimuth_reads (imu w))))]
          else [(imu_azimuth env (azimuth_reads (imu w)),
                 imu_azimuth env (S (azimuth_reads (imu w))))]).
Proof. reflexivity. Qed.

(** X3.  After [orient()], [set_azimuth(x)] refuses [x] exactly when it lies
    strictly between the two probed readings or, when the first reading
    exceeds the second, strictly between the first reading and 360 or
    strictly between 0 and the second reading. *)
Theorem orient_refuses_exactly w (x : Q) :
  let min_azimuth := imu_azimuth env (azimuth_reads (imu w)) in
  let max_azimuth := imu_azimuth env (S (azimuth_reads (imu w))) in
  let w1 := snd (orient env w) in
  ((max_azimuth < min_azimuth)%Q ->
     (azimuth_rejected w1 x <->
      (min_azimuth < x /\ x < 360)%Q \/ (0 < x /\ x < max_azimuth)%Q)) /\
  (~ (max_azimuth < min_azimuth)%Q ->
     (azimuth_rejected w1 x <-> (min_azimuth < x /\ x < max_azimuth)%Q)).
Proof.
  cbv zeta. unfold azimuth_rejected. rewrite orient_deadzone_value.
  split; intros H.
  - apply Qlt_bool_iff in H. rewrite H. split.
    + intros E. inversion E as [? ? [H1 H2]|? ? E']; subst; [left; now split|].
      inversion E' as [? ? [H1 H2]|? ? E'']; subst; [right; now split|].
      inversion E''.
    + intros [[H1 H2]|[H1 H2]].
      * apply Exists_cons_hd. now split.
      * apply Exists_cons_tl, Exists_cons_hd. now split.
  - destruct (Qlt_bool _ _) eqn:E; [apply Qlt_bool_iff in E; contradiction|].
    split.
    + intros E'. inversion E' as [? ? [H1 H2]|? ? E'']; subst; [now split|].
      inversion E''.
    + intros [H1 H2]. apply Exists_cons_hd. now split.
Qed.

(** X4.  After [orient()], the two probed readings themselves are accepted
    as azimuth setpoints, whichever way they are ordered. *)
Theorem orient_accepts_probed_readings w :
  let min_azimuth := imu_azimuth env (azimuth_reads (imu w)) in
  let max_azimuth := imu_azimuth env (S (azimuth_reads (imu w))) in
  let w1 := snd (orient env w) in
  new_azimuth (self (set_azimuth min_azimuth w1)) = min_azimuth /\
  new_azimuth (self (set_azimuth max_azimuth w1)) = max_azimuth.
Proof.
  cbv zeta.
  set (mn := imu_azimuth env (azimuth_reads (imu w))).
  set (mx := imu_azimuth env (S (azimuth_reads (imu w)))).
  assert (A : forall x, (x == mn)%Q \/ (x == mx)%Q ->
                        ~ azimuth_rejected (snd (orient env w)) x).
  { intros x Hx. unfold azimuth_rejected. rewrite orient_deadzone_value.
    fold mn mx. destruct (Qlt_bool mx mn) eqn:E.
    - apply Qlt_bool_iff in E. intros H.
      inversion H as [? ? [H1 H2]|? ? H']; subst; cbn in *; [destruct Hx; lra|].
      inversion H' as [? ? [H1 H2]|? ? H'']; subst; cbn in *; [destruct Hx; lra|].
      inversion H''.
    - apply Qlt_bool_false_iff in E. intros H.
      inversion H as [? ? [H1 H2]|? ? H']; subst; cbn in *; [destruct Hx; lra|].
      inversion H'. }
  split.
  - rewrite (set_azimuth_accepted _ _ (A mn (or_introl (Qeq_refl mn)))). reflexivity.
  - rewrite (set_azimuth_accepted _ _ (A mx (or_intror (Qeq_refl mx)))). reflexivity.
Qed.

End AfterOrient.

Section Extends.
Context {PidMem : Type}.
Implicit Types (w : World PidMem).

Lemma extends_without_refl p w : extends_without p w w.
Proof. exists []. split; [now rewrite app_nil_r | constructor]. Qed.

Lemma extends_without_trans p w1 w2 w3 :
  extends_without p w1 w2 -> extends_without p w2 w3 -> extends_without p w1 w3.
Proof.
  intros (m1 & T1 & Q1) (m2 & T2 & Q2). exists (m1 ++ m2). split.
  - rewrite T2, T1. now rewrite app_assoc.
  - apply Forall_app. now split.
Qed.
End Extends.

Ltac extends_concrete :=
  unfold extends_without; cbn;
  first
    [ exists []; split; [now rewrite app_nil_r | constructor]
    | eexists; split;
      [rewrite <- ?app_assoc; reflexivity | simpl; repeat constructor] ].

Section SensorFrames.

Context {PidMem : Type} (env : Env).
Implicit Types (w : World PidMem).

Lemma gyroscope_body_frame prev w : still w (snd (gyroscope_body env prev w)).
Proof.
  unfold still, same_controller, gyroscope_body, report_level. cbn.
  destruct (negb _); cbn;
    (split; [split; reflexivity|]); (split; [reflexivity|]);
    (split; [reflexivity|]); extends_concrete.
Qed.

Lemma gyroscope_loop_frame fuel : forall level prev w w',
  gyroscope_loop env fuel level prev w = Return w' -> still w w'.
Proof.
  assert (R : forall w, still w w).
  { intros w. split; [split; reflexivity|]. split; [reflexivity|].
    split; [reflexivity|]. apply extends_without_refl. }
  induction fuel as [|fuel IH]; intros level prev w w'; cbn [gyroscope_loop];
    destruct (level <? 3); try discriminate;
    try (intros E; injection E as <-; apply R).
  pose proof (gyroscope_body_frame prev w) as F.
  destruct (gyroscope_body env prev w) as [[lv p] w1]. cbn [snd] in F.
  intros E. apply IH in E.
  destruct F as ([F1 F2] & F3 & F4 & F5), E as ([E1 E2] & E3 & E4 & E5).
  split; [split; congruence|]. split; [congruence|]. split; [congruence|].
  eapply extends_without_trans; eassumption.
Qed.

Lemma accelerometer_body_frame prev start0 w :
  same_controller w (snd (accelerometer_body env prev start0 w)).
Proof.
  unfold accelerometer_body, report_level. cbn.
  destruct (Qlt_bool 2 _); cbn; destruct (negb _); cbn; split; reflexivity.
Qed.

Lemma accelerometer_loop_frame fuel : forall level prev start0 w w',
  accelerometer_loop env fuel level prev start0 w = Return w' -> same_controller w w'.
Proof.
  induction fuel as [|fuel IH]; intros level prev start0 w w'; cbn [accelerometer_loop];
    destruct (level <? 3); try discriminate;
    try (intros E; injection E as <-; split; reflexivity).
  pose proof (accelerometer_body_frame prev start0 w) as F.
  destruct (accelerometer_body env prev start0 w) as [[[lv p] s] w1]. cbn [snd] in F.
  intros E. apply IH in E. destruct F, E. split; congruence.
Qed.

Lemma magnetometer_body_frame prev start0 count count_2 w :
  same_controller w (snd (magnetometer_body env prev start0 count count_2 w)).
Proof.
  unfold magnetometer_body, report_level. cbn.
  destruct (Qlt_bool 2 _); cbn.
  - destruct (_ <? _); cbn; destruct (negb _); cbn; split; reflexivity.
  - destruct (negb _); cbn; split; reflexivity.
Qed.

Lemma magnetometer_loop_frame fuel : forall level prev start0 count count_2 w w',
  magnetometer_loop env fuel level prev start0 count count_2 w = Return w' ->
  same_controller w w'.
Proof.
  induction fuel as [|fuel IH]; intros level prev start0 count count_2 w w';
    cbn [magnetometer_loop];
    destruct (level <? 3); try discriminate;
    try (intros E; injection E as <-; split; reflexivity).
  pose proof (magnetometer_body_frame prev start0 count count_2 w) as F.
  destruct (magnetometer_body env prev start0 count count_2 w)
    as [[[[[lv p] s] c] c2] w1]. cbn [snd] in F.
  intros E. apply IH in E. destruct F, E. split; congruence.
Qed.

Lemma accelerometer_calibration_frame (fuel : nat) w (result : Z) w' :
  auto_calibrate_accelerometer env fuel w = Return (result, w') ->
  same_controller w w'.
Proof.
  unfold auto_calibrate_accelerometer. cbn.
  destruct (accelerometer_loop env fuel _ _ _ _) as [w1| |] eqn:E; try discriminate.
  apply accelerometer_loop_frame in E.
  intros H. injection H as _ <-. destruct E as [E1 E2]. cbn in E1, E2.
  split; cbn; congruence.
Qed.

Lemma magnetometer_calibration_frame (fuel : nat) w (result : Z) w' :
  auto_calibrate_magnetometer env fuel w = Return (result, w') ->
  same_controller w w'.
Proof.
  unfold auto_calibrate_magnetometer. cbn.
  destruct (magnetometer_loop env fuel _ _ _ _ _ _) as [w1| |] eqn:E; try discriminate.
  apply magnetometer_loop_frame in E.
  intros H. injection H as _ <-. destruct E as [E1 E2]. cbn in E1, E2.
  split; cbn; congruence.
Qed.

Lemma gyroscope_calibration_frame (fuel : nat) w (result : Z) w' :
  auto_calibrate_gyroscope env fuel w = Return (result, w') ->
  same_controller w w'.
Proof.
  unfold auto_calibrate_gyroscope. cbn.
  destruct (gyroscope_loop env fuel _ _ _) as [w1| |] eqn:E; try discriminate.
  apply gyroscope_loop_frame in E.
  intros H. injection H as _ <-. destruct E as [[E1 E2] _]. cbn in E1, E2.
  split; cbn; congruence.
Qed.

(** X5.  A sensor calibration that returns has changed none of the
    controller's own attributes (setpoints, deadzone, limits, gains, PID
    objects) and has left the timer as it was. *)
Theorem sensor_calibration_keeps_controller (k : SensorKind) (fuel : nat) w
    (result : Z) w' :
  auto_calibrate env k fuel w = Return (result, w') ->
  same_controller w w'.
Proof.
  destruct k; unfold auto_calibrate; intros H.
  - eapply accelerometer_calibration_frame; eassumption.
  - eapply magnetometer_calibration_frame; eassumption.
  - eapply gyroscope_calibration_frame; eassumption.
Qed.

(** X6.  The gyroscope calibration never actuates: when it returns, both
    servo objects are as they were and no call on an actuator was made. *)
Theorem gyroscope_calibration_moves_nothing (fuel : nat) w (result : Z) w' :
  auto_calibrate_gyroscope env fuel w = Return (result, w') ->
  azimuth w' = azimuth w /\ elevation w' = elevation w /\
  extends_without commands_actuator w w'.
Proof.
  unfold auto_calibrate_gyroscope. cbn.
  destruct (gyroscope_loop env fuel _ _ _) as [w1| |] eqn:E; try discriminate.
  apply gyroscope_loop_frame in E.
  intros H. injection H as _ <-. destruct E as (_ & E3 & E4 & E5). cbn in E3, E4.
  split; [cbn; congruence|]. split; [cbn; congruence|].
  match type of E5 with extends_without _ ?w0 _ =>
    assert (E0 : extends_without commands_actuator w w0) by extends_concrete end.
  eapply extends_without_trans; [exact E0|].
  eapply extends_without_trans; [exact E5|]. extends_concrete.
Qed.

End SensorFrames.

Section ServoFrames.
Context {PidMem : Type} (env : Env).
Implicit Types (w : World PidMem).

Lemma sweep_frame_refl ax w : sweep_frame ax w w.
Proof. repeat split. apply extends_without_refl. Qed.

Lemma sweep_frame_trans ax w1 w2 w3 :
  sweep_frame ax w1 w2 -> sweep_frame ax w2 w3 -> sweep_frame ax w1 w3.
Proof.
  intros ([A1 A2] & B & C & D & E) ([A1' A2'] & B' & C' & D' & E').
  repeat split; try congruence. eapply extends_without_trans; eassumption.
Qed.

Ltac frame_prim :=
  unfold sweep_frame, same_controller; cbn;
  split; [split; reflexivity|];
  split; [reflexivity|];
  split; [reflexivity|];
  split; [reflexivity|];
  extends_concrete.

Lemma frame_set_position ax v w : sweep_frame ax w (servo_set_position ax v w).
Proof. destruct ax; frame_prim. Qed.

Lemma frame_sleep ax t w : sweep_frame ax w (sleep t w).
Proof. destruct ax; frame_prim. Qed.

Lemma frame_print ax m w : sweep_frame ax w (print m w).
Proof. destruct ax; frame_prim. Qed.

Lemma frame_imu_get ax w : sweep_frame ax w (snd (imu_get env ax w)).
Proof. destruct ax; frame_prim. Qed.

Lemma frame_assign_min_us ax v w : sweep_frame ax w (servo_assign_min_us ax v w).
Proof. destruct ax; frame_prim. Qed.

Lemma frame_assign_max_us ax v w : sweep_frame ax w (servo_assign_max_us ax v w).
Proof. destruct ax; frame_prim. Qed.

Ltac frame_chain :=
  repeat first
    [ apply sweep_frame_refl
    | eassumption
    | match goal with
      | |- sweep_frame ?ax ?w (print ?m ?w1) =>
          apply sweep_frame_trans with w1; [|apply frame_print]
      | |- sweep_frame ?ax ?w (sleep ?t ?w1) =>
          apply sweep_frame_trans with w1; [|apply frame_sleep]
      | |- sweep_frame ?ax ?w (servo_set_position ?ax ?v ?w1) =>
          apply sweep_frame_trans with w1; [|apply frame_set_position]
      | |- sweep_frame ?ax ?w (servo_assign_min_us ?ax ?v ?w1) =>
          apply sweep_frame_trans with w1; [|apply frame_assign_min_us]
      | |- sweep_frame ?ax ?w (servo_assign_max_us ?ax ?v ?w1) =>
          apply sweep_frame_trans with w1; [|apply frame_assign_max_us]
      | |- sweep_frame ?ax ?w (snd (imu_get env ?ax ?w1)) =>
          apply sweep_frame_trans with w1; [|apply frame_imu_get]
      end ].

Lemma sweep_keeps_frame ax positions : forall d t moving first_move prev w,
  sweep_frame ax w (sweep env ax positions d t moving first_move prev w).
Proof.
  induction positions as [|i rest IH]; intros d t moving first_move prev w.
  - apply sweep_frame_refl.
  - cbn [sweep].
    pose proof (frame_imu_get ax (sleep t (servo_set_position ax i w))) as F1.
    destruct (imu_get env ax (sleep t (servo_set_position ax i w))) as [current w1].
    cbn [snd] in F1.
    assert (F1' : sweep_frame ax w w1).
    { eapply sweep_frame_trans; [|exact F1]. frame_chain. }
    clear F1.
    destruct (Qlt_bool d _ && negb first_move).
    { eapply sweep_frame_trans; [|apply IH]. frame_chain. }
    destruct (Qlt_bool d _ && first_move && negb moving).
    { eapply sweep_frame_trans; [|apply IH]. frame_chain. }
    destruct (Qlt_bool _ d && moving).
    2:{ eapply sweep_frame_trans; [|apply IH]. frame_chain. }
    match goal with |- context [imu_get env ax ?w2] =>
      pose proof (frame_imu_get ax w2) as F2;
      destruct (imu_get env ax w2) as [again w3] end.
    cbn [snd] in F2.
    assert (F2' : sweep_frame ax w w3).
    { eapply sweep_frame_trans; [|exact F2]. frame_chain. }
    clear F2.
    destruct (Qlt_bool d _).
    + eapply sweep_frame_trans; [|apply IH]. frame_chain.
    + frame_chain.
Qed.

Lemma servo_calibrators_same_controller (us : Z) (d t : Q) w w' :
  auto_calibrate_elevation_servo env us d t w = Return w' \/
  auto_calibrate_azimuth_servo env us d t w = Return w' ->
  same_controller w w'.
Proof.
  unfold auto_calibrate_elevation_servo, auto_calibrate_azimuth_servo,
    elevation_servo_setup, azimuth_servo_setup. cbn.
  destruct (py_range _ _ us) as [positions|]; [|intros [H|H]; discriminate].
  intros [H|H]; injection H as <-;
    match goal with |- context [sweep env ?ax positions d t false false ?p ?w1] =>
      destruct (sweep_keeps_frame ax positions d t false false p w1)
        as ([A1 A2] & _)
    end; cbn in A1, A2; split; assumption.
Qed.

(** X7.  The elevation range calibrator, when it returns, has changed none
    of the controller's attributes nor the timer, has left the azimuth servo
    object as it was and has made no call on the azimuth actuator. *)
Theorem elevation_calibrator_frame (us : Z) (d t : Q) w w' :
  auto_calibrate_elevation_servo env us d t w = Return w' ->
  same_controller w w' /\
  azimuth w' = azimuth w /\
  extends_without (commands_axis Azimuth) w w'.
Proof.
  unfold auto_calibrate_elevation_servo, elevation_servo_setup. cbn.
  destruct (py_range _ _ us) as [positions|]; [|discriminate].
  intros H. injection H as <-.
  match goal with |- context [sweep env Elevation positions d t false false ?p ?w1] =>
    destruct (sweep_keeps_frame Elevation positions d t false false p w1)
      as ([A1 A2] & B & _ & _ & E);
    assert (E0 : extends_without (commands_axis Azimuth) w w1) by extends_concrete
  end.
  cbn in A1, A2, B.
  split; [split; assumption|]. split; [assumption|].
  eapply extends_without_trans; eassumption.
Qed.

(** X8.  The azimuth range calibrator, when it returns, has changed none of
    the controller's attributes nor the timer, and of the elevation servo it
    has changed at most the position: its bounds and its [min_us] and
    [max_us] are as they were. *)
Theorem azimuth_calibrator_frame (us : Z) (d t : Q) w w' :
  auto_calibrate_azimuth_servo env us d t w = Return w' ->
  same_controller w w' /\
  min_position (elevation w') = min_position (elevation w) /\
  max_position (elevation w') = max_position (elevation w) /\
  min_us (elevation w') = min_us (elevation w) /\
  max_us (elevation w') = max_us (elevation w).
Proof.
  unfold auto_calibrate_azimuth_servo, azimuth_servo_setup. cbn.
  destruct (py_range _ _ us) as [positions|]; [|discriminate].
  intros H. injection H as <-.
  match goal with |- context [sweep env Azimuth positions d t false false ?p ?w1] =>
    destruct (sweep_keeps_frame Azimuth positions d t false false p w1)
      as ([A1 A2] & B & _)
  end.
  cbn in A1, A2, B. rewrite B. cbn.
  split; [split; assumption|].
  split; [reflexivity|]. split; [reflexivity|]. split; reflexivity.
Qed.

End ServoFrames.

Section NoConvergence.

Context {PidMem : Type} (env : Env).
Implicit Types (w : World PidMem).

Lemma polling_diverges (k : SensorKind) {L : Type}
    (loop : nat -> Z -> L -> World PidMem -> Result (World PidMem))
    (body : L -> World PidMem -> Z * L * World PidMem) :
  (forall fuel level l w,
     loop fuel level l w =
       if level <? 3 then
         match fuel with
         | O => OutOfFuel
         | S fuel' => loop fuel' (fst (fst (body l w))) (snd (fst (body l w)))
                           (snd (body l w))
         end
       else Return w) ->
  polls_once env k body ->
  forall fuel level l w,
    level < 3 ->
    (forall j, imu_status env k (status_polls (imu w) + j) < 3) ->
    loop fuel level l w = OutOfFuel.
Proof.
  intros Hloop Hbody.
  induction fuel as [|fuel IH]; intros level l w Hlevel Hlow;
    rewrite Hloop; apply Z.ltb_lt in Hlevel; rewrite Hlevel; [reflexivity|].
  destruct (Hbody l w) as (Hl & Hp & _).
  apply IH.
  - rewrite Hl. specialize (Hlow 0%nat). now rewrite Nat.add_0_r in Hlow.
  - intros j. rewrite Hp. specialize (Hlow (S j)).
    now rewrite Nat.add_succ_r in Hlow.
Qed.

Lemma gyroscope_loop_unfold fuel level prev w :
  gyroscope_loop env fuel level prev w =
    if level <? 3 then
      match fuel with
      | O => OutOfFuel
      | S fuel' =>
          gyroscope_loop env fuel' (fst (fst (gyroscope_body env prev w)))
                         (snd (fst (gyroscope_body env prev w)))
                         (snd (gyroscope_body env prev w))
      end
    else Return w.
Proof.
  destruct fuel as [|f]; [reflexivity|]. cbn [gyroscope_loop].
  destruct (level <? 3); [|reflexivity].
  now destruct (gyroscope_body env prev w) as [[? ?] ?].
Qed.

Lemma accelerometer_loop_unfold fuel level (l : Z * Q) w :
  accelerometer_loop env fuel level (fst l) (snd l) w =
    if level <? 3 then
      match fuel with
      | O => OutOfFuel
      | S fuel' =>
          accelerometer_loop env fuel' (fst (fst (accelerometer_step env l w)))
            (fst (snd (fst (accelerometer_step env l w))))
            (snd (snd (fst (accelerometer_step env l w))))
            (snd (accelerometer_step env l w))
      end
    else Return w.
Proof.
  destruct l as [p s]. destruct fuel as [|f]; [reflexivity|].
  cbn [accelerometer_loop fst snd].
  destruct (level <? 3); [|reflexivity].
  unfold accelerometer_step. cbn [fst snd].
  now destruct (accelerometer_body env p s w) as [[[? ?] ?] ?].
Qed.

Lemma magnetometer_loop_unfold fuel level (l : Z * Q * Z * Z) w :
  magnetometer_loop env fuel level (fst (fst (fst l))) (snd (fst (fst l)))
                    (snd (fst l)) (snd l) w =
    if level <? 3 then
      match fuel with
      | O => OutOfFuel
      | S fuel' =>
          magnetometer_loop env fuel' (fst (fst (magnetometer_step env l w)))
            (fst (fst (fst (snd (fst (magnetometer_step env l w))))))
            (snd (fst (fst (snd (fst (magnetometer_step env l w))))))
            (snd (fst (snd (fst (magnetometer_step env l w)))))
            (snd (snd (fst (magnetometer_step env l w))))
            (snd (magnetometer_step env l w))
      end
    else Return w.
Proof.
  destruct l as [[[p s] c] c2]. destruct fuel as [|f]; [reflexivity|].
  cbn [magnetometer_loop fst snd].
  destruct (level <? 3); [|reflexivity].
  unfold magnetometer_step. cbn [fst snd].
  now destruct (magnetometer_body env p s c c2 w) as [[[[[? ?] ?] ?] ?] ?].
Qed.

(** X9.  A sensor calibration has no timeout: when the confidence stays below
    3 at every poll, no amount of fuel lets it return. *)
Theorem calibration_hangs_below_confidence (k : SensorKind) (fuel : nat) w :
  (forall j, imu_status env k (status_polls (imu w) + j) < 3) ->
  auto_calibrate env k fuel w = OutOfFuel.
Proof.
  intros Hlow.
  assert (H0 : imu_status env k (status_polls (imu w)) < 3).
  { specialize (Hlow 0%nat). now rewrite Nat.add_0_r in Hlow. }
  assert (HS : forall w0 : World PidMem,
            status_polls (imu w0) = S (status_polls (imu w)) ->
            forall j, imu_status env k (status_polls (imu w0) + j) < 3).
  { intros w0 E j. rewrite E. specialize (Hlow (S j)).
    now rewrite Nat.add_succ_r in Hlow. }
  destruct k; unfold auto_calibrate.
  - unfold auto_calibrate_accelerometer. cbn.
    match goal with |- context [accelerometer_loop env fuel ?lv ?p ?s ?w0] =>
      pose proof (polling_diverges Accelerometer
                 (fun fuel level l => accelerometer_loop env fuel level (fst l) (snd l))
                 (accelerometer_step env) (accelerometer_loop_unfold)
                 (accelerometer_body_polls_once env) fuel lv (p, s) w0 H0
                 (HS w0 eq_refl)) as D end.
    cbn [fst snd] in D. now rewrite D.
  - unfold auto_calibrate_magnetometer. cbn.
    match goal with |- context [magnetometer_loop env fuel ?lv ?p ?s ?c ?c2 ?w0] =>
      pose proof (polling_diverges Magnetometer
                 (fun fuel level l =>
                    magnetometer_loop env fuel level (fst (fst (fst l)))
                      (snd (fst (fst l))) (snd (fst l)) (snd l))
                 (magnetometer_step env) (magnetometer_loop_unfold)
                 (magnetometer_body_polls_once env) fuel lv (p, s, c, c2) w0 H0
                 (HS w0 eq_refl)) as D end.
    cbn [fst snd] in D. now rewrite D.
  - unfold auto_calibrate_gyroscope. cbn.
    match goal with |- context [gyroscope_loop env fuel ?lv ?p ?w0] =>
      rewrite (polling_diverges Gyroscope (gyroscope_loop env) (gyroscope_body env)
                 (gyroscope_loop_unfold) (gyroscope_body_polls_once env)
                 fuel lv p w0 H0 (HS w0 eq_refl)) end.
    reflexivity.
Qed.

End NoConvergence.

Section SweepEdges.

Context {PidMem : Type} (env : Env).
Implicit Types (w : World PidMem).

Lemma py_range_negative_step (a b step : Z) :
  a <= b -> step < 0 -> py_range a b step = Some [].
Proof.
  intros Hab Hs. unfold py_range.
  destruct (Z.eqb_spec step 0) as [|_]; [lia|].
  destruct (Z.ltb_spec 0 step) as [|_]; [lia|].
  assert (H : (a - b - step - 1) / - step < 1)
    by (apply Z.div_lt_upper_bound; lia).
  replace (Z.to_nat ((a - b - step - 1) / - step)) with 0%nat by lia.
  reflexivity.
Qed.

(** X10.  Step sizes the sweep cannot use: with [us = 0] both range
    calibrators raise [ValueError] (from [range]); with a negative [us] the
    sweep visits no position, so the calibrator returns right after its
    setup, with nothing refined and nothing signalled. *)
Theorem servo_calibrators_step_edges (d t : Q) w :
  auto_calibrate_elevation_servo env 0 d t w = Raise ValueError /\
  auto_calibrate_azimuth_servo env 0 d t w = Raise ValueError /\
  (forall us, us < 0 ->
     auto_calibrate_elevation_servo env us d t w
       = Return (snd (elevation_servo_setup env w)) /\
     auto_calibrate_azimuth_servo env us d t w
       = Return (snd (azimuth_servo_setup env w))).
Proof.
  split; [reflexivity|]. split; [reflexivity|].
  intros us Hus.
  unfold auto_calibrate_elevation_servo, auto_calibrate_azimuth_servo,
    elevation_servo_setup, azimuth_servo_setup. cbn.
  rewrite py_range_negative_step by lia. split; reflexivity.
Qed.

Lemma get_delta_same (x y : Q) : (x == y)%Q -> (get_delta x y == 0)%Q.
Proof.
  intros E. unfold get_delta. cbv zeta.
  assert (H : (Qabs (x - y) == 0)%Q).
  { apply Qabs_case; intros; lra. }
  destruct (Qlt_bool 180 (Qabs (x - y))) eqn:E1; [|exact H].
  apply Qlt_bool_iff in E1. lra.
Qed.

Lemma no_motion_detected (d x y : Q) :
  (0 <= d)%Q -> (x == y)%Q -> Qlt_bool d (get_delta x y) = false.
Proof.
  intros Hd E. apply Qlt_bool_false_iff. rewrite (get_delta_same x y E). exact Hd.
Qed.

Lemma imu_get_reads ax w :
  imu_get env ax w =
    (imu_script env ax (match ax with
                        | Azimuth => azimuth_reads (imu w)
                        | Elevation => elevation_reads (imu w)
                        end),
     snd (imu_get env ax w)).
Proof. destruct ax; reflexivity. Qed.

Lemma sweep_motionless ax (d t : Q) positions : forall prev w,
  (0 <= d)%Q ->
  (forall k, (imu_script env ax k == prev)%Q) ->
  min_us (servo ax (sweep env ax positions d t false false prev w)) = min_us (servo ax w) /\
  max_us (servo ax (sweep env ax positions d t false false prev w)) = max_us (servo ax w).
Proof.
  induction positions as [|i rest IH]; intros prev w Hd Hstill; [split; reflexivity|].
  cbn [sweep]. rewrite imu_get_reads.
  rewrite (no_motion_detected d _ prev Hd (Hstill _)). cbn [andb].
  rewrite andb_false_r.
  match goal with |- context [sweep env ax rest d t false false ?c ?w1] =>
    destruct (IH c w1 Hd) as [H1 H2];
    [ intros k; rewrite (Hstill k); symmetry; apply Hstill
    | rewrite H1, H2; destruct ax; split; reflexivity ]
  end.
Qed.

(** X11.  A platform that never moves: when all readings of the swept axis
    are equal and the threshold [d] is not negative, the range calibrator
    returns with [min_us] and [max_us] of the swept servo as they were; it
    reports no failure. *)
Theorem motionless_sweep_refines_nothing (ax : Axis) (us : Z) (d t : Q) w :
  us <> 0 ->
  (0 <= d)%Q ->
  (forall j k, (imu_script env ax j == imu_script env ax k)%Q) ->
  exists w',
    match ax with
    | Azimuth => auto_calibrate_azimuth_servo env us d t w
    | Elevation => auto_calibrate_elevation_servo env us d t w
    end = Return w' /\
    min_us (servo ax w') = min_us (servo ax w) /\
    max_us (servo ax w') = max_us (servo ax w).
Proof.
  intros Hus Hd Hstill.
  destruct ax;
    unfold auto_calibrate_azimuth_servo, auto_calibrate_elevation_servo,
      azimuth_servo_setup, elevation_servo_setup; cbn;
    (destruct (py_range 0 4095 us) as [positions|] eqn:E;
     [| unfold py_range in E; destruct (Z.eqb_spec us 0); [contradiction|];
        destruct (0 <? us); discriminate ]);
    eexists; (split; [reflexivity|]);
    match goal with |- context [sweep env ?ax positions d t false false ?c ?w1] =>
      destruct (sweep_motionless ax d t positions c w1 Hd) as [H1 H2];
      [ intros k; apply Hstill
      | split; [etransitivity; [exact H1|] | etransitivity; [exact H2|]]; reflexivity ]
    end.
Qed.

End SweepEdges.

Section SessionInvariants.

Context {PidMem : Type} (pid_call : PID PidMem -> Q -> Q * PID PidMem) (env : Env).
Implicit Types (w : World PidMem).

Lemma set_azimuth_self deg w :
  set_azimuth deg w = print MsgMustOrient w \/
  set_azimuth deg w = print MsgOutOfServoLimit w \/
  set_azimuth deg w = with_self (set_new_azimuth deg) w.
Proof.
  unfold set_azimuth. destruct (deadzone (self w)) as [dz|]; [|now left].
  destruct (in_deadzone dz deg); [right; now left | right; now right].
Qed.

Lemma pid_loop_returns w :
  has_pids w ->
  exists w', pid_loop pid_call env w = Return w' /\ has_pids w' /\
    new_elevation (self w') = new_elevation (self w) /\
    new_azimuth (self w') = new_azimuth (self w) /\
    deadzone (self w') = deadzone (self w) /\
    pid_loop_timer w' = pid_loop_timer w /\
    azimuth_reads (imu w') = S (azimuth_reads (imu w)) /\
    elevation_reads (imu w') = S (elevation_reads (imu w)).
Proof.
  intros [He Ha]. unfold pid_loop.
  destruct (elevation_pid (self w)) as [pe|] eqn:Ee; [|contradiction].
  cbn.
  destruct (azimuth_pid (self w)) as [pa|] eqn:Ea; [|contradiction].
  cbn.
  destruct (pid_call (pid_set_setpoint (new_elevation (self w)) pe) _) as [oe pe'].
  cbn.
  destruct (pid_call (pid_set_setpoint (new_azimuth (self w)) pa) _) as [oa pa'].
  eexists. split; [reflexivity|]. cbn.
  split; [split; discriminate|].
  repeat (split; [reflexivity|]). reflexivity.
Qed.

Lemma start_returns w :
  has_pids w ->
  exists w', start env w = Return w' /\ has_pids w' /\
             deadzone (self w') = deadzone (self w).
Proof.
  intros [He Ha]. unfold start, start_pid_loop. cbn.
  destruct (azimuth_pid (self w)) as [pa|] eqn:Ea; [|contradiction].
  cbn.
  destruct (elevation_pid (self w)) as [pe|] eqn:Ee; [|contradiction].
  eexists. split; [reflexivity|]. cbn.
  split; [split; discriminate | reflexivity].
Qed.

Lemma kept_same_controller w w' : same_controller w w' -> kept w w'.
Proof.
  intros [E _]. unfold kept, has_pids. rewrite E. tauto.
Qed.

Ltac kept_by_computation :=
  unfold kept, has_pids; cbn; split; [tauto | first [tauto | intros _; discriminate]].

Lemma accelerometer_loop_no_raise fuel : forall level prev start0 w e,
  accelerometer_loop env fuel level prev start0 w <> Raise e.
Proof.
  induction fuel as [|fuel IH]; intros level prev start0 w e; cbn [accelerometer_loop];
    destruct (level <? 3); try discriminate.
  destruct (accelerometer_body env prev start0 w) as [[[lv p] s] w1]. apply IH.
Qed.

Lemma magnetometer_loop_no_raise fuel : forall level prev start0 count count_2 w e,
  magnetometer_loop env fuel level prev start0 count count_2 w <> Raise e.
Proof.
  induction fuel as [|fuel IH]; intros level prev start0 count count_2 w e;
    cbn [magnetometer_loop]; destruct (level <? 3); try discriminate.
  destruct (magnetometer_body env prev start0 count count_2 w)
    as [[[[[lv p] s] c] c2] w1]. apply IH.
Qed.

Lemma gyroscope_loop_no_raise fuel : forall level prev w e,
  gyroscope_loop env fuel level prev w <> Raise e.
Proof.
  induction fuel as [|fuel IH]; intros level prev w e; cbn [gyroscope_loop];
    destruct (level <? 3); try discriminate.
  destruct (gyroscope_body env prev w) as [[lv p] w1]. apply IH.
Qed.

Lemma auto_calibrate_no_raise (k : SensorKind) (fuel : nat) w (e : PyError) :
  auto_calibrate env k fuel w <> Raise e.
Proof.
  destruct k; unfold auto_calibrate.
  - unfold auto_calibrate_accelerometer. cbn.
    destruct (accelerometer_loop env fuel _ _ _ _) eqn:E; try discriminate.
    now apply accelerometer_loop_no_raise in E.
  - unfold auto_calibrate_magnetometer. cbn.
    destruct (magnetometer_loop env fuel _ _ _ _ _ _) eqn:E; try discriminate.
    now apply magnetometer_loop_no_raise in E.
  - unfold auto_calibrate_gyroscope. cbn.
    destruct (gyroscope_loop env fuel _ _ _) eqn:E; try discriminate.
    now apply gyroscope_loop_no_raise in E.
Qed.

Lemma servo_calibrators_raise_value_error (us : Z) (d t : Q) w (e : PyError) :
  auto_calibrate_elevation_servo env us d t w = Raise e \/
  auto_calibrate_azimuth_servo env us d t w = Raise e ->
  e = ValueError.
Proof.
  unfold auto_calibrate_elevation_servo, auto_calibrate_azimuth_servo,
    elevation_servo_setup, azimuth_servo_setup. cbn.
  destruct (py_range _ _ us); intros [H|H]; try discriminate; now injection H.
Qed.

Lemma run_command_keeps (c : Command) w :
  has_pids w -> ends_well (kept w) (run_command pid_call env c w).
Proof.
  intros Hp. destruct c; cbn [run_command ends_well].
  - destruct (set_azimuth_self deg w) as [E|[E|E]]; rewrite E; kept_by_computation.
  - kept_by_computation.
  - unfold set_coordinates.
    destruct (set_azimuth_self az (set_elevation el w)) as [E|[E|E]]; rewrite E;
      kept_by_computation.
  - kept_by_computation.
  - kept_by_computation.
  - kept_by_computation.
  - destruct (start_returns w Hp) as (w' & E & Hp' & Hd). rewrite E. cbn.
    split; [tauto | now rewrite Hd].
  - kept_by_computation.
  - destruct (pid_loop_returns w Hp) as (w' & E & Hp' & _ & _ & Hd & _).
    rewrite E. cbn. split; [tauto | now rewrite Hd].
  - destruct (auto_calibrate env k fuel w) as [[r w']|e|] eqn:E; cbn.
    + apply kept_same_controller. destruct k; unfold auto_calibrate in E.
      * eapply accelerometer_calibration_frame; eassumption.
      * eapply magnetometer_calibration_frame; eassumption.
      * eapply gyroscope_calibration_frame; eassumption.
    + now apply auto_calibrate_no_raise in E.
    + exact I.
  - destruct (auto_calibrate_elevation_servo env us d t w) as [w'|e|] eqn:E; cbn.
    + apply kept_same_controller.
      eapply servo_calibrators_same_controller. left. eassumption.
    + eapply servo_calibrators_raise_value_error. left. eassumption.
    + exact I.
  - destruct (auto_calibrate_azimuth_servo env us d t w) as [w'|e|] eqn:E; cbn.
    + apply kept_same_controller.
      eapply servo_calibrators_same_controller. right. eassumption.
    + eapply servo_calibrators_raise_value_error. right. eassumption.
    + exact I.
Qed.

Lemma run_keeps (cs : list Command) : forall w,
  has_pids w -> ends_well (kept w) (run pid_call env cs w).
Proof.
  induction cs as [|c cs IH]; intros w Hp; cbn [run].
  - cbn. unfold kept. tauto.
  - pose proof (run_command_keeps c w Hp) as H1.
    destruct (run_command pid_call env c w) as [w1|e|]; cbn in H1 |- *;
      [|assumption|exact I].
    destruct H1 as [K1 K2].
    pose proof (IH w1 (K1 Hp)) as H2.
    destruct (run pid_call env cs w1) as [w2|e|]; cbn in H2 |- *;
      [|assumption|exact I].
    destruct H2 as [K3 K4]. split; tauto.
Qed.

(** X12.  Whatever sequence of public calls and timer ticks follows the
    construction of a controller, and whatever the PID capability and the
    environment do, no call ever finds a PID object missing: the session
    returns with both PID objects in place, or hangs in a polling loop, or
    raises the [ValueError] of a zero sweep step. *)
Theorem session_never_misses_its_pids (pid_fresh : PidMem)
    (azimuth0 elevation0 : Servo) (imu0 : Imu) (limits : Q * Q) (frequency : Z)
    (p i d : Q) (cs : list Command) :
  ends_well has_pids
    (run pid_call env cs
       (init pid_fresh env azimuth0 elevation0 imu0 limits frequency p i d)).
Proof.
  set (w0 := init _ _ _ _ _ _ _ _ _ _).
  assert (H0 : has_pids w0) by (split; discriminate).
  pose proof (run_keeps cs w0 H0) as H.
  destruct (run pid_call env cs w0); cbn in H |- *; try assumption.
  now apply H.
Qed.

(** X13.  Once a deadzone is set, no public call and no tick unsets it: a
    session started on an oriented controller ends on an oriented one. *)
Theorem oriented_stays_oriented (cs : list Command) w w' :
  has_pids w ->
  deadzone (self w) <> None ->
  run pid_call env cs w = Return w' ->
  deadzone (self w') <> None.
Proof.
  intros Hp Hd E. pose proof (run_keeps cs w Hp) as H.
  rewrite E in H. now apply H.
Qed.

End SessionInvariants.

Section TickFrame.

Context {PidMem : Type} (pid_call : PID PidMem -> Q -> Q * PID PidMem) (env : Env).
Implicit Types (w : World PidMem).

(** X14.  The tick handler on a controller whose PID objects exist: [n]
    ticks return, whatever the PID capability answers; they leave both
    setpoints, the deadzone and the timer as they were, and read the azimuth
    and the elevation from the sensor exactly [n] times each. *)
Theorem ticks_only_read_the_setpoints (n : nat) w :
  has_pids w ->
  exists w',
    ticks pid_call env n w = Return w' /\
    new_elevation (self w') = new_elevation (self w) /\
    new_azimuth (self w') = new_azimuth (self w) /\
    deadzone (self w') = deadzone (self w) /\
    pid_loop_timer w' = pid_loop_timer w /\
    azimuth_reads (imu w') = (azimuth_reads (imu w) + n)%nat /\
    elevation_reads (imu w') = (elevation_reads (imu w) + n)%nat.
Proof.
  revert w. induction n as [|n IH]; intros w Hp.
  - exists w. cbn. rewrite !Nat.add_0_r.
    repeat (split; [reflexivity|]). reflexivity.
  - destruct (pid_loop_returns pid_call env w Hp)
      as (w1 & E1 & Hp1 & A1 & B1 & C1 & D1 & R1 & S1).
    destruct (IH w1 Hp1) as (w' & E & A & B & C & D & R & S').
    exists w'. cbn [ticks]. rewrite E1.
    split; [exact E|].
    split; [congruence|]. split; [congruence|]. split; [congruence|].
    split; [congruence|]. split; lia.
Qed.

End TickFrame.

Section Raster.

Context {PidMem : Type} (env : Env).
Implicit Types (w : World PidMem).

Lemma range_fraction_8 (lo hi : Z) : range_fraction lo hi 8 = Z.quot (hi - lo) 8.
Proof.
  unfold range_fraction, py_int. simpl. now rewrite Z.mul_1_r.
Qed.

Lemma extends_with_refl P w : extends_with P w w.
Proof. exists []. split; [now rewrite app_nil_r | constructor]. Qed.

Lemma extends_with_trans P w1 w2 w3 :
  extends_with P w1 w2 -> extends_with P w2 w3 -> extends_with P w1 w3.
Proof.
  intros (m1 & T1 & Q1) (m2 & T2 & Q2). exists (m1 ++ m2). split.
  - rewrite T2, T1. now rewrite app_assoc.
  - apply Forall_app. now split.
Qed.

Lemma magnetometer_body_raster la ha le he prev start0 count count_2 w :
  raster_ok la ha le he count count_2 w ->
  raster_ok la ha le he
    (snd (fst (fst (magnetometer_body env prev start0 count count_2 w))))
    (snd (fst (magnetometer_body env prev start0 count count_2 w)))
    (snd (magnetometer_body env prev start0 count count_2 w)) /\
  extends_with (position_within la ha le he) w
    (snd (magnetometer_body env prev start0 count count_2 w)).
Proof.
  intros (A1 & A2 & A3 & A4 & C1 & C2 & C3 & C4).
  unfold magnetometer_body, report_level, raster_ok, extends_with,
    get_min_position, get_max_position. cbn.
  rewrite !range_fraction_8, A1, A2, A3, A4.
  pose proof (Z.quot_pos (ha - la) 8 ltac:(lia) ltac:(lia)) as Qa.
  pose proof (Z.quot_pos (he - le) 8 ltac:(lia) ltac:(lia)) as Qe.
  destruct (Qlt_bool 2 _); cbn.
  - destruct (Z.ltb_spec ha (count + Z.quot (ha - la) 8 + la)); cbn.
    + destruct (Z.ltb_spec he (count_2 + Z.quot (he - le) 8 + le)); cbn;
        destruct (negb _); cbn; rewrite ?A1, ?A2, ?A3, ?A4;
        (split; [repeat split; lia|]);
        (eexists; split; [rewrite <- ?app_assoc; reflexivity|]);
        repeat (constructor; [cbn; try exact I; lia|]); constructor.
    + destruct (negb _); cbn; rewrite ?A1, ?A2, ?A3, ?A4;
        (split; [repeat split; lia|]);
        (eexists; split; [rewrite <- ?app_assoc; reflexivity|]);
        repeat (constructor; [cbn; try exact I; lia|]); constructor.
  - destruct (negb _); cbn; rewrite ?A1, ?A2, ?A3, ?A4;
      (split; [repeat split; lia|]);
      (eexists; split; [rewrite <- ?app_assoc; reflexivity|]);
      repeat (constructor; [cbn; try exact I; lia|]); constructor.
Qed.

Lemma magnetometer_loop_raster la ha le he fuel :
  forall level prev start0 count count_2 w w',
    raster_ok la ha le he count count_2 w ->
    magnetometer_loop env fuel level prev start0 count count_2 w = Return w' ->
    extends_with (position_within la ha le he) w w'.
Proof.
  induction fuel as [|fuel IH]; intros level prev start0 count count_2 w w' Hok;
    cbn [magnetometer_loop]; destruct (level <? 3); try discriminate;
    try (intros E; injection E as <-; apply extends_with_refl).
  destruct (magnetometer_body_raster la ha le he prev start0 count count_2 w Hok)
    as [Hok1 E1].
  destruct (magnetometer_body env prev start0 count count_2 w)
    as [[[[[lv p] s] c] c2] w1]. cbn [fst snd] in Hok1, E1.
  intros E. apply (extends_with_trans _ _ w1); [exact E1|].
  eapply IH; eassumption.
Qed.

(** X15.  The raster of the magnetometer calibration stays inside the
    actuators' bounds: on servos whose minimum bound does not exceed the
    maximum, every position commanded to an axis, from the call to its
    return, lies between that axis's two bounds. *)
Theorem magnetometer_raster_within_bounds (fuel : nat) w (result : Z) w' :
  get_min_position Azimuth w <= get_max_position Azimuth w ->
  get_min_position Elevation w <= get_max_position Elevation w ->
  auto_calibrate_magnetometer env fuel w = Return (result, w') ->
  extends_with
    (position_within (get_min_position Azimuth w) (get_max_position Azimuth w)
                     (get_min_position Elevation w) (get_max_position Elevation w))
    w w'.
Proof.
  unfold get_min_position, get_max_position. cbn [servo].
  intros Ha He. unfold auto_calibrate_magnetometer. cbn.
  destruct (magnetometer_loop env fuel _ _ _ _ _ _) as [w1| |] eqn:E; try discriminate.
  apply (magnetometer_loop_raster (min_position (azimuth w)) (max_position (azimuth w))
           (min_position (elevation w)) (max_position (elevation w))) in E.
  - intros H. injection H as _ <-.
    destruct E as (mid & T & F). unfold get_min_position in T. cbn in T.
    exists ([EPrepareCalibration (fusion_mode (imu w));
             EStatus Magnetometer (imu_status env Magnetometer (status_polls (imu w)));
             EPrint (MsgCalibrating Magnetometer);
             EPrint (MsgConfigurationLevel
                       (imu_status env Magnetometer (status_polls (imu w))));
             ETime (clock env (clock_reads w));
             ESetPosition Elevation (min_position (elevation w))]
            ++ mid ++
            [EPrint (MsgCalibrationDone Magnetometer);
             EMode (fusion_mode (imu w));
             ESaveCalibration Magnetometer
               (imu_save_result env Magnetometer (saves (imu w1)))]).
    split.
    + cbn. rewrite T. rewrite <- !app_assoc. reflexivity.
    + apply Forall_app. split.
      * repeat (constructor; [cbn; try exact I; lia|]). constructor.
      * apply Forall_app. split; [exact F|].
        repeat (constructor; [exact I|]). constructor.
  - unfold raster_ok. cbn. repeat split; lia.
Qed.

End Raster.

Section SweepRecords.

Context {PidMem : Type} (env : Env).
Implicit Types (w : World PidMem).

Lemma silent_not_in (pre : list Event) (e : Event) :
  Forall silent pre -> In e pre ->
  forall i, e <> EPrint (MsgMovement i) /\ e <> EPrint (MsgNoMovement i).
Proof.
  intros F H. rewrite Forall_forall in F. exact (F e H).
Qed.

Lemma records_the_stop_after ax w w1 w' (pre : list Event) :
  trace w1 = trace w ++ pre ->
  Forall silent pre ->
  min_us (servo ax w1) = min_us (servo ax w) ->
  records_the_stop ax w1 w' ->
  records_the_stop ax w w'.
Proof.
  intros T1 S1 M1 (M & mid & T & N & X). split; [congruence|].
  exists (pre ++ mid). split; [rewrite T, T1; now rewrite app_assoc|].
  split; intros i H; apply in_app_or in H; destruct H as [H|H].
  - now destruct (silent_not_in pre _ S1 H i).
  - now apply (N i).
  - now destruct (silent_not_in pre _ S1 H i).
  - now apply X.
Qed.

Lemma records_what_it_reports_after ax w w1 w' (pre : list Event) :
  trace w1 = trace w ++ pre ->
  Forall silent pre ->
  records_what_it_reports ax w1 w' ->
  records_what_it_reports ax w w'.
Proof.
  intros T1 S1 (mid & T & N & X).
  exists (pre ++ mid). split; [rewrite T, T1; now rewrite app_assoc|].
  split; intros i H; apply in_app_or in H; destruct H as [H|H].
  - now destruct (silent_not_in pre _ S1 H i).
  - now apply N.
  - now destruct (silent_not_in pre _ S1 H i).
  - now apply X.
Qed.

Ltac silent_events :=
  repeat (constructor; [intros ?; split; discriminate|]); constructor.

Lemma trace_print (m : Message) w : trace (print m w) = trace w ++ [EPrint m].
Proof. reflexivity. Qed.

Lemma trace_sleep (t : Q) w : trace (sleep t w) = trace w ++ [ESleep t].
Proof. reflexivity. Qed.

Lemma trace_set_position ax (v : Z) w :
  trace (servo_set_position ax v w) = trace w ++ [ESetPosition ax v].
Proof. now destruct ax. Qed.

Lemma trace_assign_min_us ax (v : Z) w : trace (servo_assign_min_us ax v w) = trace w.
Proof. now destruct ax. Qed.

Lemma trace_assign_max_us ax (v : Z) w : trace (servo_assign_max_us ax v w) = trace w.
Proof. now destruct ax. Qed.

Ltac norm_trace :=
  repeat (progress rewrite ?trace_assign_max_us, ?trace_assign_min_us, ?trace_print,
                           ?trace_sleep, ?trace_set_position).

Ltac concrete_trace := norm_trace; rewrite <- ?app_assoc; reflexivity.

(** The reading of [imu_get] as an event. *)
Lemma imu_get_trace ax w :
  exists e, trace (snd (imu_get env ax w)) = trace w ++ [e] /\ silent e /\
            servo ax (snd (imu_get env ax w)) = servo ax w.
Proof.
  destruct ax; cbn; eexists; (split; [reflexivity|]);
    (split; [intros ?; split; discriminate | reflexivity]).
Qed.

Lemma sweep_records_the_stop ax (d t : Q) positions : forall first_move prev w,
  records_the_stop ax w (sweep env ax positions d t true first_move prev w).
Proof.
  induction positions as [|i rest IH]; intros first_move prev w.
  - split; [reflexivity|]. exists []. rewrite app_nil_r.
    split; [reflexivity|]. split; intros j H; destruct H.
  - cbn [sweep].
    destruct (imu_get_trace ax (sleep t (servo_set_position ax i w)))
      as (e1 & T1 & S1 & V1).
    destruct (imu_get env ax (sleep t (servo_set_position ax i w))) as [current w1].
    cbn [snd] in T1, V1.
    assert (T1' : trace w1 = trace w ++ [ESetPosition ax i; ESleep t; e1])
      by (rewrite T1; concrete_trace).
    assert (M1 : min_us (servo ax w1) = min_us (servo ax w))
      by (rewrite V1; destruct ax; reflexivity).
    assert (F1 : Forall silent [ESetPosition ax i; ESleep t; e1]).
    { repeat (constructor; [first [exact S1 | intros ?; split; discriminate]|]).
      constructor. }
    apply (records_the_stop_after ax w w1 _ _ T1' F1 M1). clear T1 T1' F1 M1 V1 S1.
    rewrite andb_false_r.
    destruct (Qlt_bool d (get_delta current prev) && negb first_move).
    { eapply records_the_stop_after; [| | |apply IH];
        [concrete_trace | silent_events | destruct ax; reflexivity]. }
    destruct (Qlt_bool (get_delta current prev) d && true).
    2:{ eapply records_the_stop_after; [| | |apply IH];
          [concrete_trace | silent_events | destruct ax; reflexivity]. }
    match goal with |- context [imu_get env ax ?w2] =>
      destruct (imu_get_trace ax w2) as (e2 & T2 & S2 & V2);
      destruct (imu_get env ax w2) as [again w3] end.
    cbn [snd] in T2, V2.
    destruct (Qlt_bool d (get_delta again current)).
    + eapply records_the_stop_after; [| | |apply IH].
      * rewrite T2. concrete_trace.
      * repeat (constructor; [first [exact S2 | intros ?; split; discriminate]|]).
        constructor.
      * rewrite V2. destruct ax; reflexivity.
    + split; [destruct ax; cbn in V2 |- *; now rewrite V2|].
      eexists. split; [norm_trace; rewrite T2; concrete_trace|].
      split.
      * intros j H. cbn in H.
        repeat (destruct H as [H|H]; [first [discriminate H | now destruct (S2 j); subst]|]).
        destruct H.
      * intros j H. cbn in H.
        repeat (destruct H as [H|H];
                [first [ injection H as <-; destruct ax; reflexivity
                       | discriminate H
                       | now destruct (S2 j); subst ]|]).
        destruct H.
Qed.

Lemma sweep_records ax (d t : Q) positions : forall first_move prev w,
  records_what_it_reports ax w (sweep env ax positions d t false first_move prev w).
Proof.
  induction positions as [|i rest IH]; intros first_move prev w.
  - exists []. rewrite app_nil_r. split; [reflexivity|]. split; intros j H; destruct H.
  - cbn [sweep].
    destruct (imu_get_trace ax (sleep t (servo_set_position ax i w)))
      as (e1 & T1 & S1 & V1).
    destruct (imu_get env ax (sleep t (servo_set_position ax i w))) as [current w1].
    cbn [snd] in T1, V1.
    assert (T1' : trace w1 = trace w ++ [ESetPosition ax i; ESleep t; e1])
      by (rewrite T1; concrete_trace).
    assert (F1 : Forall silent [ESetPosition ax i; ESleep t; e1]).
    { repeat (constructor; [first [exact S1 | intros ?; split; discriminate]|]).
      constructor. }
    apply (records_what_it_reports_after ax w w1 _ _ T1' F1). clear T1 T1' F1 V1 S1.
    rewrite andb_false_r. cbn [negb]. rewrite andb_true_r.
    destruct (Qlt_bool d (get_delta current prev) && negb first_move).
    { eapply records_what_it_reports_after; [| |apply IH];
        [concrete_trace | silent_events]. }
    destruct (Qlt_bool d (get_delta current prev) && first_move).
    2:{ eapply records_what_it_reports_after; [| |apply IH];
          [concrete_trace | silent_events]. }
    match goal with |- context [sweep env ax rest d t true ?f ?c ?w2] =>
      destruct (sweep_records_the_stop ax d t rest f c w2) as (M & mid & T & N & X) end.
    exists ([EPrint (MsgSweep i (get_delta current prev)); EPrint (MsgMovement i);
             EPrint (MsgPrevious prev); EPrint (MsgCurrent current);
             EPrint (MsgDelta (get_delta current prev))] ++ mid).
    split; [rewrite T; concrete_trace|]. split.
    + intros j H. apply in_app_or in H. destruct H as [H|H]; [|now destruct (N j)].
      cbn in H.
      repeat (destruct H as [H|H]; [first [injection H as <- | discriminate H]|]);
        [|destruct H].
      rewrite M. destruct ax; reflexivity.
    + intros j H. apply in_app_or in H. destruct H as [H|H]; [|now apply X].
      cbn in H. repeat (destruct H as [H|H]; [discriminate H|]). destruct H.
Qed.

(** X16.  What a range calibrator records is tied to what it reports, for
    every step size: if, between the call and its return, it printed that
    movement was detected at position [i], the swept servo's [min_us] is
    [i + 100] on return; if it printed that no movement was detected at [i],
    the servo's [max_us] is [i - 100]. *)
Theorem calibrators_record_what_they_report (ax : Axis) (us : Z) (d t : Q) w w' :
  match ax with
  | Azimuth => auto_calibrate_azimuth_servo env us d t w
  | Elevation => auto_calibrate_elevation_servo env us d t w
  end = Return w' ->
  records_what_it_reports ax w w'.
Proof.
  destruct ax;
    unfold auto_calibrate_azimuth_servo, auto_calibrate_elevation_servo,
      azimuth_servo_setup, elevation_servo_setup; cbn;
    (destruct (py_range 0 4095 us) as [positions|]; [|discriminate]);
    intros H; injection H as <-;
    (eapply records_what_it_reports_after; [| |apply sweep_records]);
    [cbn; rewrite <- ?app_assoc; reflexivity | silent_events
    |cbn; rewrite <- ?app_assoc; reflexivity | silent_events].
Qed.

End SweepRecords.

Section DeadzoneOwner.

Context {PidMem : Type} (pid_call : PID PidMem -> Q -> Q * PID PidMem) (env : Env).
Implicit Types (w : World PidMem).

Lemma run_command_deadzone (c : Command) w w' :
  has_pids w ->
  c <> COrient ->
  run_command pid_call env c w = Return w' ->
  deadzone (self w') = deadzone (self w).
Proof.
  intros Hp Hc. destruct c; cbn [run_command]; try contradiction.
  - intros E. injection E as <-.
    destruct (set_azimuth_self deg w) as [E|[E|E]]; now rewrite E.
  - intros E. now injection E as <-.
  - intros E. injection E as <-. unfold set_coordinates.
    destruct (set_azimuth_self az (set_elevation el w)) as [E|[E|E]]; now rewrite E.
  - intros E. now injection E as <-.
  - intros E. now injection E as <-.
  - destruct (start_returns env w Hp) as (w1 & E1 & _ & Hd). rewrite E1.
    intros E. now injection E as <-.
  - intros E. now injection E as <-.
  - destruct (pid_loop_returns pid_call env w Hp) as (w1 & E1 & _ & _ & _ & Hd & _).
    rewrite E1. intros E. now injection E as <-.
  - destruct (auto_calibrate env k fuel w) as [[r w1]|e|] eqn:E1; try discriminate.
    intros E. injection E as <-.
    assert (S : same_controller w w1).
    { destruct k; unfold auto_calibrate in E1.
      - eapply accelerometer_calibration_frame; eassumption.
      - eapply magnetometer_calibration_frame; eassumption.
      - eapply gyroscope_calibration_frame; eassumption. }
    destruct S as [S _]. now rewrite S.
  - intros E.
    destruct (servo_calibrators_same_controller env us d t w w' (or_introl E)) as [S _].
    now rewrite S.
  - intros E.
    destruct (servo_calibrators_same_controller env us d t w w' (or_intror E)) as [S _].
    now rewrite S.
Qed.

(** X17.  The deadzone is written by [orient()] alone: a session without a
    call to [orient] that returns ends with the deadzone it started with. *)
Theorem deadzone_written_only_by_orient (cs : list Command) : forall w w',
  has_pids w ->
  ~ In COrient cs ->
  run pid_call env cs w = Return w' ->
  deadzone (self w') = deadzone (self w).
Proof.
  induction cs as [|c cs IH]; intros w w' Hp Hn; cbn [run].
  - intros E. now injection E as <-.
  - pose proof (run_command_keeps pid_call env c w Hp) as K.
    destruct (run_command pid_call env c w) as [w1|e|] eqn:E1; try discriminate.
    cbn in K. destruct K as [K _].
    intros E. rewrite (IH w1 w' (K Hp)); [| |exact E].
    + apply (run_command_deadzone c w w1 Hp); [|exact E1].
      intros ->. apply Hn. now left.
    + intros H. apply Hn. now right.
Qed.

End DeadzoneOwner.

Section AccelerometerPacing.

Context {PidMem : Type} (env : Env).
Implicit Types (w : World PidMem).

Hypothesis slow_clock : forall j k, (clock env j - clock env k <= 2)%Q.

Lemma still_refl w : still w w.
Proof.
  split; [split; reflexivity|]. split; [reflexivity|]. split; [reflexivity|].
  apply extends_without_refl.
Qed.

Lemma still_trans w1 w2 w3 : still w1 w2 -> still w2 w3 -> still w1 w3.
Proof.
  intros ([A1 A2] & B1 & C1 & E1) ([A1' A2'] & B1' & C1' & E1').
  split; [split; congruence|]. split; [congruence|]. split; [congruence|].
  eapply extends_without_trans; eassumption.
Qed.

Lemma accelerometer_body_paced prev (k : nat) w :
  still w (snd (accelerometer_body env prev (clock env k) w)) /\
  snd (fst (accelerometer_body env prev (clock env k) w)) = clock env k.
Proof.
  unfold accelerometer_body. cbn.
  assert (E : Qlt_bool 2 (clock env (clock_reads w) - clock env k) = false)
    by (apply Qlt_bool_false_iff, slow_clock).
  rewrite E. unfold report_level. cbn.
  destruct (negb _); cbn; (split; [|reflexivity]);
    unfold still, same_controller; cbn;
    (split; [split; reflexivity|]); (split; [reflexivity|]);
    (split; [reflexivity|]); extends_concrete.
Qed.

Lemma accelerometer_loop_paced fuel : forall level prev (k : nat) w w',
  accelerometer_loop env fuel level prev (clock env k) w = Return w' -> still w w'.
Proof.
  induction fuel as [|fuel IH]; intros level prev k w w'; cbn [accelerometer_loop];
    destruct (level <? 3); try discriminate;
    try (intros E; injection E as <-; apply still_refl).
  destruct (accelerometer_body_paced prev k w) as [S1 E1].
  destruct (accelerometer_body env prev (clock env k) w) as [[[lv p] s] w1].
  cbn [fst snd] in S1, E1. subst s.
  intros E. apply IH in E. eapply still_trans; eassumption.
Qed.

(** X18.  The accelerometer calibration moves the platform only after more
    than 2 time units on the clock: when no two clock readings are more than
    2 apart, a calibration that returns has left both servo objects
    unchanged and has sent no command to either actuator. *)
Theorem accelerometer_calibration_waits (fuel : nat) w (result : Z) w' :
  auto_calibrate_accelerometer env fuel w = Return (result, w') ->
  azimuth w' = azimuth w /\ elevation w' = elevation w /\
  extends_without commands_actuator w w'.
Proof.
  unfold auto_calibrate_accelerometer. cbn.
  destruct (accelerometer_loop env fuel _ _ _ _) as [w1| |] eqn:E; try discriminate.
  apply accelerometer_loop_paced in E.
  intros H. injection H as _ <-. destruct E as (_ & E3 & E4 & E5). cbn in E3, E4.
  split; [cbn; congruence|]. split; [cbn; congruence|].
  match type of E5 with extends_without _ ?w0 _ =>
    assert (E0 : extends_without commands_actuator w w0) by extends_concrete end.
  eapply extends_without_trans; [exact E0|].
  eapply extends_without_trans; [exact E5|]. extends_concrete.
Qed.

End AccelerometerPacing.

(** ** The further properties at concrete inputs *)

(** Runs the call of the goal and continues with its result. *)
Ltac with_result k :=
  match goal with
  | |- exists r w', ?t = Return (r, w') /\ _ =>
      let v := eval vm_compute in t in
      match v with
      | Return (?r0, ?w0) =>
          exists r0, w0; split; [vm_compute; reflexivity | k r0 w0]
      end
  end.

Ltac with_world k :=
  match goal with
  | |- exists w', ?t = Return w' /\ _ =>
      let v := eval vm_compute in t in
      match v with
      | Return ?w0 => exists w0; split; [vm_compute; reflexivity | k w0]
      end
  end.

(** X5 on the accelerometer, confidence 0, 0, 0, 0, 0, 3, six polls. *)
Lemma sensor_calibration_keeps_controller_witness :
  let env := sim_confidence [0; 0; 0; 0; 0; 3] 3 in
  let w := sim_controller env (-20, 20)%Q in
  exists r w',
    auto_calibrate env Accelerometer 5 w = Return (r, w') /\ same_controller w w'.
Proof.
  cbv zeta.
  with_result ltac:(fun r0 w0 =>
    apply (sensor_calibration_keeps_controller
             (sim_confidence [0; 0; 0; 0; 0; 3] 3) Accelerometer 5
             (sim_controller (sim_confidence [0; 0; 0; 0; 0; 3] 3) (-20, 20)%Q) r0 w0);
    vm_compute; reflexivity).
Defined.

(** X6 on a gyroscope whose confidence reads 0, 1, 3. *)
Lemma gyroscope_calibration_moves_nothing_witness :
  let env := sim_confidence [0; 1; 3] 3 in
  let w := sim_controller env (-20, 20)%Q in
  exists r w',
    auto_calibrate_gyroscope env 2 w = Return (r, w') /\
    (azimuth w' = azimuth w /\ elevation w' = elevation w /\
     extends_without commands_actuator w w').
Proof.
  cbv zeta.
  with_result ltac:(fun r0 w0 =>
    apply (gyroscope_calibration_moves_nothing (sim_confidence [0; 1; 3] 3) 2
             (sim_controller (sim_confidence [0; 1; 3] 3) (-20, 20)%Q) r0 w0);
    vm_compute; reflexivity).
Defined.

(** X7 and X8 on the short-travel platform with step 50. *)
Lemma elevation_calibrator_frame_witness :
  let w := sim_controller sim_short_travel (-20, 20)%Q in
  exists w',
    auto_calibrate_elevation_servo sim_short_travel 50 (1 # 2) (1 # 10) w = Return w' /\
    (same_controller w w' /\ azimuth w' = azimuth w /\
     extends_without (commands_axis Azimuth) w w').
Proof.
  cbv zeta.
  with_world ltac:(fun w0 =>
    apply (elevation_calibrator_frame sim_short_travel 50 (1 # 2) (1 # 10)
             (sim_controller sim_short_travel (-20, 20)%Q) w0);
    vm_compute; reflexivity).
Defined.

Lemma azimuth_calibrator_frame_witness :
  let w := sim_controller sim_short_travel (-20, 20)%Q in
  exists w',
    auto_calibrate_azimuth_servo sim_short_travel 50 (1 # 2) (1 # 10) w = Return w' /\
    (same_controller w w' /\
     min_position (elevation w') = min_position (elevation w) /\
     max_position (elevation w') = max_position (elevation w) /\
     min_us (elevation w') = min_us (elevation w) /\
     max_us (elevation w') = max_us (elevation w)).
Proof.
  cbv zeta.
  with_world ltac:(fun w0 =>
    apply (azimuth_calibrator_frame sim_short_travel 50 (1 # 2) (1 # 10)
             (sim_controller sim_short_travel (-20, 20)%Q) w0);
    vm_compute; reflexivity).
Defined.

(** X9 on a magnetometer whose confidence stays at 2, with fuel 40. *)
Lemma calibration_hangs_below_confidence_witness :
  auto_calibrate (sim_confidence [] 2) Magnetometer 40
    (sim_controller (sim_confidence [] 2) (-20, 20)%Q) = OutOfFuel.
Proof.
  apply calibration_hangs_below_confidence.
  intros j. cbn. destruct j; reflexivity.
Defined.

(** X11 on the elevation axis of a platform at rest, step 100, threshold 1/2. *)
Lemma motionless_sweep_refines_nothing_witness :
  let env := sim_pointing 90 45 in
  let w := sim_controller env (-20, 20)%Q in
  exists w',
    auto_calibrate_elevation_servo env 100 (1 # 2) (1 # 10) w = Return w' /\
    min_us (servo Elevation w') = min_us (servo Elevation w) /\
    max_us (servo Elevation w') = max_us (servo Elevation w).
Proof.
  cbv zeta.
  apply (motionless_sweep_refines_nothing (sim_pointing 90 45) Elevation 100).
  - discriminate.
  - discriminate.
  - intros j k. reflexivity.
Defined.

(** X13 on an oriented controller running a session of commands and ticks. *)
Lemma oriented_stays_oriented_witness :
  let env := sim_azimuths [10; 350]%Q 300%Q in
  let w := snd (orient env (sim_controller env (-20, 20)%Q)) in
  exists w',
    run p_only_call env
        [CSetAzimuth 355; CStart; CTick; CTick; CSetCoordinates 120 45; CStop] w
      = Return w' /\
    deadzone (self w') <> None.
Proof.
  cbv zeta.
  with_world ltac:(fun w0 =>
    apply (oriented_stays_oriented p_only_call (sim_azimuths [10; 350]%Q 300%Q)
             [CSetAzimuth 355; CStart; CTick; CTick; CSetCoordinates 120 45; CStop]
             (snd (orient (sim_azimuths [10; 350]%Q 300%Q)
                          (sim_controller (sim_azimuths [10; 350]%Q 300%Q)
                                          (-20, 20)%Q)))
             w0);
    [ split; discriminate | discriminate | vm_compute; reflexivity ]).
Defined.

(** X14 on three ticks of a controller just built. *)
Lemma ticks_only_read_the_setpoints_witness :
  let env := sim_pointing 90 45 in
  let w := sim_controller env (-20, 20)%Q in
  exists w',
    ticks p_only_call env 3 w = Return w' /\
    new_elevation (self w') = new_elevation (self w) /\
    new_azimuth (self w') = new_azimuth (self w) /\
    deadzone (self w') = deadzone (self w) /\
    pid_loop_timer w' = pid_loop_timer w /\
    azimuth_reads (imu w') = (azimuth_reads (imu w) + 3)%nat /\
    elevation_reads (imu w') = (elevation_reads (imu w) + 3)%nat.
Proof.
  cbv zeta.
  apply (ticks_only_read_the_setpoints p_only_call (sim_pointing 90 45) 3).
  split; discriminate.
Defined.

(** X15 on a magnetometer that reaches full confidence at the sixth poll, so
    that the raster advances once. *)
Lemma magnetometer_raster_within_bounds_witness :
  let env := sim_confidence [0; 0; 0; 0; 0; 3] 3 in
  let w := sim_controller env (-20, 20)%Q in
  exists r w',
    auto_calibrate_magnetometer env 5 w = Return (r, w') /\
    extends_with
      (position_within (get_min_position Azimuth w) (get_max_position Azimuth w)
                       (get_min_position Elevation w) (get_max_position Elevation w))
      w w'.
Proof.
  cbv zeta.
  with_result ltac:(fun r0 w0 =>
    apply (magnetometer_raster_within_bounds (sim_confidence [0; 0; 0; 0; 0; 3] 3) 5
             (sim_controller (sim_confidence [0; 0; 0; 0; 0; 3] 3) (-20, 20)%Q) r0 w0);
    [ discriminate | discriminate | vm_compute; reflexivity ]).
Defined.

(** X16 on the elevation calibrator, short-travel platform, step 50. *)
Lemma calibrators_record_what_they_report_witness :
  let w := sim_controller sim_short_travel (-20, 20)%Q in
  exists w',
    auto_calibrate_elevation_servo sim_short_travel 50 (1 # 2) (1 # 10) w = Return w' /\
    records_what_it_reports Elevation w w'.
Proof.
  cbv zeta.
  with_world ltac:(fun w0 =>
    apply (calibrators_record_what_they_report sim_short_travel Elevation 50
             (1 # 2) (1 # 10) (sim_controller sim_short_travel (-20, 20)%Q) w0);
    vm_compute; reflexivity).
Defined.

(** X17 on a controller just built: after a session without [orient] the
    deadzone is still unset. *)
Lemma deadzone_written_only_by_orient_witness :
  let env := sim_pointing 90 45 in
  let w := sim_controller env (-20, 20)%Q in
  exists w',
    run p_only_call env
        [CSetAzimuth 10; CStart; CTick; CSetCoordinates 20 30; CGetAzimuth; CStop] w
      = Return w' /\
    deadzone (self w') = deadzone (self w).
Proof.
  cbv zeta.
  with_world ltac:(fun w0 =>
    apply (deadzone_written_only_by_orient p_only_call (sim_pointing 90 45)
             [CSetAzimuth 10; CStart; CTick; CSetCoordinates 20 30; CGetAzimuth; CStop]
             (sim_controller (sim_pointing 90 45) (-20, 20)%Q) w0);
    [ split; discriminate
    | cbn; intuition discriminate
    | vm_compute; reflexivity ]).
Defined.

(** X18 on an accelerometer that reaches full confidence at the sixth poll
    while the clock reads 0, 1, 2, 2, ... *)
Lemma accelerometer_calibration_waits_witness :
  let env := sim_stalled_clock [0; 0; 0; 0; 0; 3] 3 in
  let w := sim_controller env (-20, 20)%Q in
  exists r w',
    auto_calibrate_accelerometer env 5 w = Return (r, w') /\
    (azimuth w' = azimuth w /\ elevation w' = elevation w /\
     extends_without commands_actuator w w').
Proof.
  cbv zeta.
  with_result ltac:(fun r0 w0 =>
    apply (accelerometer_calibration_waits (sim_stalled_clock [0; 0; 0; 0; 0; 3] 3)
             ltac:(intros [|[|[|j]]] [|[|[|k]]]; discriminate) 5
             (sim_controller (sim_stalled_clock [0; 0; 0; 0; 0; 3] 3) (-20, 20)%Q)
             r0 w0);
    vm_compute; reflexivity).
Defined.
